(** * cudf: type-list test utilities and the ContiguousTable JNI shim

    A shallow embedding of

    - [cpp/tests/experimental/TypeList.hpp]: the compile-time type-list
      algebra ([Concat], [Flatten], [CrossJoin]) used to build typed-test
      parameter lists, read as functions on an inductive type of C++
      types;
    - [java/src/main/native/src/ContiguousTableJni.cpp]: the JNI glue
      around [cudf::packed_columns], read as state-passing code over the
      two file-scope globals, the native heap and the managed runtime.  *)

From Equations Require Import Equations.
From stdpp Require Import base option list strings gmap.
From Stdlib Require Import ZArith Lia Sorting.Sorted.

Set Warnings "-register-all".
Local Open Scope string_scope.

(** ** Part I: TypeList.hpp *)

Module TypeList.

(** A C++ type, as far as the header can tell types apart: either an
    instance [Types<T...>] of the variadic type-list template, or any
    other type (identified by its name). *)
Inductive type : Type :=
| Plain (name : string)
| Types (ts : list type).

(** A type that is not a type list. *)
Definition is_plain (t : type) : Prop :=
  match t with Plain _ => True | Types _ => False end.

(** Number of constructors, the measure the recursive templates
    decrease. *)
Fixpoint size (t : type) : nat :=
  match t with
  | Plain _ => 1
  | Types ts => S (list_sum (map size ts))
  end.

(** Below, naming [X<...>::type] either gives a type ([Some]) or is
    ill-formed because only the undefined primary template matches
    ([None], a compile-time error). *)

(** [GetSize<TUPLE>]: [sizeof...(TYPES)] of a type list. *)
Definition GetSize (TUPLE : type) : option nat :=
  match TUPLE with
  | Types TYPES => Some (length TYPES)
  | Plain _ => None
  end.

(** [detail::Concat2<Types<T...>, Types<U...>>::type = Types<T..., U...>]. *)
Definition Concat2 (A B : type) : option type :=
  match A, B with
  | Types T, Types U => Some (Types (T ++ U))
  | _, _ => None
  end.

(** [ConcatImpl<T...>::type], one clause per specialization. *)
Equations? ConcatImpl (T : list type) : option type by wf (length T) lt :=
  ConcatImpl [] := Some (Types []);
  ConcatImpl [A] := Some A;
  ConcatImpl (HEAD1 :: HEAD2 :: TAIL) with Concat2 HEAD1 HEAD2 => {
    | Some C := ConcatImpl (C :: TAIL);
    | None := None }.
Proof. simpl; lia. Qed.

Definition Concat (T : list type) : option type := ConcatImpl T.

(** [FlattenImpl<T>::type].  The specialization for a nested list head
    is the more specialized one, so it is tried before the generic
    [HEAD, TAIL...] one. *)
Equations? FlattenImpl (T : type) : option type by wf (size T) lt :=
  FlattenImpl (Plain _) := None;
  FlattenImpl (Types []) := Some (Types []);
  FlattenImpl (Types (Types HEAD :: TAIL)) := FlattenImpl (Types (HEAD ++ TAIL));
  FlattenImpl (Types (HEAD :: TAIL)) with FlattenImpl (Types TAIL) => {
    | Some R := Concat [Types [HEAD]; R];
    | None := None }.
Proof.
  all: simpl; rewrite ?map_app, ?list_sum_app; lia.
Qed.

Definition Flatten (T : type) : option type := FlattenImpl T.

(** [detail::Prepend1<T, Types<ARGS...>>::type = Flatten<Types<T, ARGS...>>]. *)
Definition Prepend1 (T TUPLE : type) : option type :=
  match TUPLE with
  | Types ARGS => Flatten (Types (T :: ARGS))
  | Plain _ => None
  end.

(** [detail::Prepend<T, TUPLES>::type]: leading empty tuples are skipped,
    then [T] is prepended to every remaining tuple. *)
Equations? Prepend (T TUPLES : type) : option type by wf (size TUPLES) lt :=
  Prepend T (Plain _) := None;
  Prepend T (Types (Types [] :: TUPLES)) := Prepend T (Types TUPLES);
  Prepend T (Types TUPLES) := Types <$> mapM (Prepend1 T) TUPLES.
Proof. simpl; lia. Qed.

(** Termination measure of [CrossJoinImpl]: the clause that wraps a
    non-list head into [Types<T>] keeps the number of arguments. *)
Definition CrossJoin_measure (ARGS : list type) : nat :=
  match ARGS with
  | Plain _ :: _ => S (2 * length ARGS)
  | _ => 2 * length ARGS
  end.

(** [CrossJoinImpl<ARGS...>::type].  The join of the tail is named
    inside the pack expansion over [AARGS], so it is instantiated once
    per element of the head list (and not at all for an empty head). *)
Equations? CrossJoinImpl (ARGS : list type) : option type
  by wf (CrossJoin_measure ARGS) lt :=
  CrossJoinImpl [] := Some (Types []);
  CrossJoinImpl [Types ARGS] := Some (Types (map (fun A => Types [A]) ARGS));
  CrossJoinImpl (Types AARGS :: TAIL) :=
    mapM (fun A => CrossJoinImpl TAIL ≫= Prepend A) AARGS ≫= Concat;
  CrossJoinImpl (Plain T :: TAIL) := CrossJoinImpl (Types [Plain T] :: TAIL).
Proof.
  all: unfold CrossJoin_measure; simpl; try lia.
  all: repeat match goal with |- context [match ?l with _ => _ end] => destruct l end.
  all: simpl; lia.
Qed.

Definition CrossJoin (ARGS : list type) : option type := CrossJoinImpl ARGS.

(** The cartesian product of two packs, first index slowest; only used
    inside proofs, to name the list the instantiation computes. *)
Definition pairs_of (A B : list type) : list type :=
  concat (map (fun a => map (fun b => Types [a; b]) B) A).

(** *** The rest of the header *)

(** [std::is_same] on the modelled types. *)
Fixpoint type_eqb (a b : type) : bool :=
  match a, b with
  | Plain x, Plain y => String.eqb x y
  | Types xs, Types ys =>
      (fix list_eqb (xs ys : list type) : bool :=
         match xs, ys with
         | [], [] => true
         | x :: xs', y :: ys' => type_eqb x y && list_eqb xs' ys'
         | _, _ => false
         end) xs ys
  | _, _ => false
  end.

(** The conversion of an [int] to [size_t] that [D < sizeof...(T)] and
    [sizeof...(TAIL) + 1 > IDXHEAD - CUR] perform before comparing. *)
Definition to_size_t (i : Z) : Z := (i mod 2 ^ 64)%Z.

(** [GetTypeImpl<T, D>::type], with [Types<T...>::Head] and [::Tail] the
    first element and the list of the others.  A failed [static_assert]
    makes the instantiation ill-formed. *)
Equations? GetTypeImpl (T : type) (D : Z) : option type by wf (size T) lt :=
  GetTypeImpl (Plain n) D := if decide (D = 0%Z) then Some (Plain n) else None;
  GetTypeImpl (Types []) D := None;
  GetTypeImpl (Types (Head :: Tail)) D with decide (D = 0%Z) => {
    | left _ := Some Head;
    | right _ :=
        if decide (to_size_t D < Z.of_nat (length (Head :: Tail)))%Z
        then GetTypeImpl (Types Tail) (D - 1)
        else None }.
Proof. destruct Head; simpl; lia. Qed.

Definition GetType (TUPLE : type) (D : Z) : option type := GetTypeImpl TUPLE D.

(** [detail::AllSame<ITEMS...>::value].  For a single argument that is a
    type list, the specialization unwrapping the list is the more
    specialized one. *)
Equations? AllSame (ITEMS : list type) : bool
  by wf (list_sum (map size ITEMS)) lt :=
  AllSame [] := false;
  AllSame [Types ITEMS] := AllSame ITEMS;
  AllSame [A] := true;
  AllSame [A; B] := type_eqb A B;
  AllSame (HEAD :: HEAD' :: TAIL) :=
    if type_eqb HEAD HEAD' then AllSame (HEAD :: TAIL) else false.
Proof.
  all: simpl; try lia.
  all: repeat match goal with
         | |- context [size ?t] => is_var t; destruct t; simpl
         end; lia.
Qed.

(** [AllSame::Call<ITEMS...>], as [RemoveIf] uses it: on one type. *)
Definition AllSame_Call (HEAD : type) : option bool := Some (AllSame [HEAD]).

(** [ExistsImpl<NEEDLE, HAYSACK>::value]: linear search. *)
Equations? ExistsImpl (NEEDLE HAYSACK : type) : option bool
  by wf (size HAYSACK) lt :=
  ExistsImpl NEEDLE (Plain _) := None;
  ExistsImpl NEEDLE (Types []) := Some false;
  ExistsImpl NEEDLE (Types (HEAD :: TAIL)) :=
    if type_eqb NEEDLE HEAD then Some true
    else ExistsImpl NEEDLE (Types TAIL).
Proof.
  all: simpl; try lia.
  all: repeat match goal with
         | |- context [size ?t] => is_var t; destruct t; simpl
         end; lia.
Qed.

Definition Exists (NEEDLE HAYSACK : type) : option bool :=
  ExistsImpl NEEDLE HAYSACK.

(** [ContainedIn<HAYSACK>::Call<NEEDLE>]. *)
Definition ContainedIn_Call (HAYSACK NEEDLE : type) : option bool :=
  ExistsImpl NEEDLE HAYSACK.

(** [RemoveIfImpl<PRED, TUPLE>::type]; the predicate is given by the
    value of [PRED::Call<HEAD>::value]. *)
Equations? RemoveIfImpl (PRED_Call : type -> option bool) (TUPLE : type)
  : option type by wf (size TUPLE) lt :=
  RemoveIfImpl PRED_Call (Plain _) := None;
  RemoveIfImpl PRED_Call (Types []) := Some (Types []);
  RemoveIfImpl PRED_Call (Types (HEAD :: TAIL)) :=
    b ← PRED_Call HEAD;
    R ← RemoveIfImpl PRED_Call (Types TAIL);
    Concat [if b : bool then Types [] else Types [HEAD]; R].
Proof.
  all: simpl; try lia.
  all: repeat match goal with
         | |- context [size ?t] => is_var t; destruct t; simpl
         end; lia.
Qed.

Definition RemoveIf (PRED_Call : type -> option bool) (TUPLE : type)
  : option type := RemoveIfImpl PRED_Call TUPLE.

(** [TransformImpl<XFORM, TYPES>::type]; the transformation is given by
    [XFORM::Call<ITEMS>]. *)
Definition TransformImpl (XFORM_Call : type -> option type) (TYPES : type)
  : option type :=
  match TYPES with
  | Types ITEMS => Types <$> mapM XFORM_Call ITEMS
  | Plain _ => None
  end.

Definition Transform (XFORM_Call : type -> option type) (TYPES : type)
  : option type := TransformImpl XFORM_Call TYPES.

(** [detail::Repeat<T, N, RES>::type].  A negative [N] never reaches the
    specialization for [0]: the recursion has no end and the
    instantiation fails. *)
Equations? Repeat_detail (T : type) (N : Z) (RES : type) : option type
  by wf (Z.to_nat N) lt :=
  Repeat_detail T N (Plain _) := None;
  Repeat_detail T N (Types ITEMS) with decide (N = 0%Z) => {
    | left _ := Some (Types ITEMS);
    | right _ with decide (N < 0)%Z => {
      | left _ := None;
      | right _ := Repeat_detail T (N - 1) (Types (T :: ITEMS)) } }.
Proof. lia. Qed.

(** [Repeat<N>::Call<T>]. *)
Definition Repeat_Call (N : Z) (T : type) : option type :=
  Repeat_detail T N (Types []).

(** [AppendImpl<TYPES, ITEMS...>::type]. *)
Definition Append (TYPES : type) (ITEMS : list type) : option type :=
  match TYPES with
  | Types HEAD => Some (Types (HEAD ++ ITEMS))
  | Plain _ => None
  end.

(** [detail::Remove<Types<ITEMS...>, CUR, IDXs...>::type]. *)
Fixpoint Remove_detail (ITEMS : list type) (CUR : Z) (IDXs : list Z)
  : option type :=
  match IDXs, ITEMS with
  | [], _ => Some (Types ITEMS)
  | IDXHEAD :: IDXTAIL, HEAD :: TAIL =>
      if decide (IDXHEAD = CUR) then Remove_detail TAIL (CUR + 1) IDXTAIL
      else if decide (Z.of_nat (length TAIL) + 1 > to_size_t (IDXHEAD - CUR))%Z
      then R ← Remove_detail TAIL (CUR + 1) IDXs; Concat [Types [HEAD]; R]
      else None
  | _ :: _, [] => None
  end.

(** [Remove<TUPLE, IDXs...>]. *)
Definition Remove (TUPLE : type) (IDXs : list Z) : option type :=
  match TUPLE with
  | Types ITEMS => Remove_detail ITEMS 0 IDXs
  | Plain _ => None
  end.

(** The types that are not lists occurring in a type, left to right:
    what flattening keeps. *)
Fixpoint leaves (t : type) : list type :=
  match t with
  | Plain _ => [t]
  | Types ts => flat_map leaves ts
  end.

(** All ways to pick one element from each list, the first list's pick
    varying slowest. *)
Fixpoint product (Ls : list (list type)) : list (list type) :=
  match Ls with
  | [] => [[]]
  | L :: Ls' => flat_map (fun a => map (cons a) (product Ls')) L
  end.

End TypeList.

(** ** Part II: ContiguousTableJni.cpp *)

Module ContiguousTableJni.

Local Open Scope Z_scope.

(** *** Values crossing the boundary *)

(** JNI handles ([jobject], [jclass], [jmethodID]) and native pointers
    are machine words; the null handle and the null pointer are [0]. *)
Definition jlong := Z.
Definition jobject := Z.
Definition jclass := Z.
Definition jmethodID := Z.
Definition pointer := Z.
Definition nullptr : Z := 0.

(** [reinterpret_cast<jlong>(p)] and [static_cast<jlong>(n)]: a 64-bit
    unsigned word read as a signed 64-bit integer. *)
Definition to_jlong (u : Z) : jlong := (u + 2 ^ 63) mod 2 ^ 64 - 2 ^ 63.

(** [reinterpret_cast<T *>(j)]: the same word read as an address. *)
Definition to_pointer (j : jlong) : pointer := j mod 2 ^ 64.

(** The two kinds of native objects the shim handles:
    [std::vector<uint8_t>] (the serialized metadata) and
    [rmm::device_buffer] (the GPU data), each with its [data()] pointer
    and its [size()]. *)
Inductive native_object : Type :=
| Vector (data : pointer) (size : Z)
| DeviceBuffer (data : pointer) (size : Z).

(** [cudf::packed_columns]: two [std::unique_ptr]s, each represented by
    the pointer it stores ([nullptr] when it owns nothing). *)
Record packed_columns : Type := PackedColumns {
  metadata : pointer;
  gpu_data : pointer }.

(** [std::unique_ptr::release]: give up ownership without deleting; the
    stored pointer becomes null. *)
Definition release_metadata (split : packed_columns) : packed_columns :=
  PackedColumns nullptr (gpu_data split).
Definition release_gpu_data (split : packed_columns) : packed_columns :=
  PackedColumns (metadata split) nullptr.

(** The four arguments [contiguous_table_from] hands to the factory
    method for a table whose device buffer has the given [data()] and
    [size()]: [metadata_address], [data_address], [data_size] and
    [rmm_buffer_address], in this order. *)
Definition factory_args (split : packed_columns) (data : pointer) (size : Z)
    : list jlong :=
  [to_jlong (metadata split); to_jlong data; to_jlong size;
   to_jlong (gpu_data split)].

(** [CONTIGUOUS_TABLE_CLASS] and [CONTIGUOUS_TABLE_FACTORY_SIG]: adjacent
    string literals are concatenated. *)
Definition CONTIGUOUS_TABLE_CLASS : string := "ai/rapids/cudf/ContiguousTable".
Definition CONTIGUOUS_TABLE_FACTORY_SIG (param_sig : string) : string :=
  "(" +:+ param_sig +:+ ")L" +:+ CONTIGUOUS_TABLE_CLASS +:+ ";".

(** A C++ exception in flight, with its [what()] text. *)
Record exception : Type := Exception { what : string }.

(** Calls made through [JNIEnv], in the order they happen. *)
Inductive jni_call : Type :=
| FindClass_call (name : string)
| GetStaticMethodID_call (cls : jclass) (name sig : string)
| NewGlobalRef_call (obj : jobject)
| DeleteGlobalRef_call (obj : jobject)
| CallStaticObjectMethod_call (cls : jclass) (method : jmethodID) (args : list jlong)
| NewDirectByteBuffer_call (address : pointer) (capacity : jlong)
| raise_error_call (message : string).

(** The managed runtime behind [JNIEnv *env]: an arbitrary state [JVM]
    and, for every function of the interface the shim uses, its result
    and effect on that state.  JNI functions report failure through null
    results, never through C++ exceptions. *)
Class JNIEnv (JVM : Type) : Type := {
  jvm_FindClass : string -> JVM -> jclass * JVM;
  jvm_GetStaticMethodID : jclass -> string -> string -> JVM -> jmethodID * JVM;
  jvm_NewGlobalRef : jobject -> JVM -> jobject * JVM;
  jvm_DeleteGlobalRef : jobject -> JVM -> unit * JVM;
  jvm_CallStaticObjectMethod : jclass -> jmethodID -> list jlong -> JVM -> jobject * JVM;
  jvm_NewDirectByteBuffer : pointer -> jlong -> JVM -> jobject * JVM;
  (* the runtime's error convention: an error with a message is left
     pending for the managed caller *)
  jvm_raise_error : string -> JVM -> unit * JVM }.

Section Shim.

Context {JVM : Type} `{env : JNIEnv JVM}.

(** Everything the shim can read or change: its two file-scope
    globals, the native heap, the managed runtime, and the log of the
    JNI calls made so far. *)
Record world : Type := World {
  Contiguous_table_jclass : jclass;
  From_packed_table_method : jmethodID;
  heap : gmap Z native_object;
  jvm : JVM;
  jni_log : list jni_call }.

(** How a piece of native code ends: it returns, a C++ exception
    leaves it, or its behaviour is undefined (a null or dangling
    pointer is dereferenced or deleted). *)
Inductive outcome (A : Type) : Type :=
| Normal (a : A) (w : world)
| Throws (e : exception) (w : world)
| Undefined.
Global Arguments Normal {A} a w.
Global Arguments Throws {A} e w.
Global Arguments Undefined {A}.

Definition M (A : Type) : Type := world -> outcome A.

Definition ret {A} (a : A) : M A := fun w => Normal a w.

Definition bind {A B} (m : M A) (k : A -> M B) : M B :=
  fun w =>
    match m w with
    | Normal a w' => k a w'
    | Throws e w' => Throws e w'
    | Undefined => Undefined
    end.

Definition throw {A} (e : exception) : M A := fun w => Throws e w.

Notation "x <- m ;; k" := (bind m (fun x => k))
  (at level 100, m at next level, right associativity).
Notation "m ;;; k" := (bind m (fun _ => k))
  (at level 100, right associativity).

(** Assignments to the two globals. *)
Definition set_Contiguous_table_jclass (c : jclass) : M unit :=
  fun w => Normal tt (World c (From_packed_table_method w) (heap w) (jvm w) (jni_log w)).
Definition set_From_packed_table_method (m : jmethodID) : M unit :=
  fun w => Normal tt (World (Contiguous_table_jclass w) m (heap w) (jvm w) (jni_log w)).
Definition get_Contiguous_table_jclass : M jclass :=
  fun w => Normal (Contiguous_table_jclass w) w.
Definition get_From_packed_table_method : M jmethodID :=
  fun w => Normal (From_packed_table_method w) w.

(** A call through [env]: the runtime answers and moves on, and the
    call is logged. *)
Definition jni {A} (c : jni_call) (op : JVM -> A * JVM) : M A :=
  fun w =>
    let '(a, j) := op (jvm w) in
    Normal a (World (Contiguous_table_jclass w) (From_packed_table_method w)
                    (heap w) j (jni_log w ++ [c])).

Definition FindClass (name : string) : M jclass :=
  jni (FindClass_call name) (jvm_FindClass name).
Definition GetStaticMethodID (cls : jclass) (name sig : string) : M jmethodID :=
  jni (GetStaticMethodID_call cls name sig) (jvm_GetStaticMethodID cls name sig).
Definition NewGlobalRef (obj : jobject) : M jobject :=
  jni (NewGlobalRef_call obj) (jvm_NewGlobalRef obj).
Definition DeleteGlobalRef (obj : jobject) : M unit :=
  jni (DeleteGlobalRef_call obj) (jvm_DeleteGlobalRef obj).
Definition CallStaticObjectMethod (cls : jclass) (method : jmethodID)
    (args : list jlong) : M jobject :=
  jni (CallStaticObjectMethod_call cls method args)
      (jvm_CallStaticObjectMethod cls method args).
Definition NewDirectByteBuffer (address : pointer) (capacity : jlong) : M jobject :=
  jni (NewDirectByteBuffer_call address capacity)
      (jvm_NewDirectByteBuffer address capacity).

(** Modelled from the spec: the one step by which the macros of the
    absent [cudf_jni_apis.hpp] signal an error to the managed caller,
    carrying a message. *)
Definition raise_error (message : string) : M unit :=
  jni (raise_error_call message) (jvm_raise_error message).

(** Native heap accesses.  [p->data()] and [p->size()] need [p] to
    point to a live object of the right type. *)
Definition deref_device_buffer (p : pointer) : M (pointer * Z) :=
  fun w =>
    match heap w !! p with
    | Some (DeviceBuffer d n) => Normal (d, n) w
    | _ => Undefined
    end.

Definition deref_vector (p : pointer) : M (pointer * Z) :=
  fun w =>
    match heap w !! p with
    | Some (Vector d n) => Normal (d, n) w
    | _ => Undefined
    end.

(** [delete p] for [p : std::vector<uint8_t> *]: a no-op on the null
    pointer, deallocation of a live vector, undefined otherwise. *)
Definition delete_vector (p : pointer) : M unit :=
  fun w =>
    if decide (p = nullptr) then Normal tt w else
    match heap w !! p with
    | Some (Vector _ _) =>
        Normal tt (World (Contiguous_table_jclass w) (From_packed_table_method w)
                         (delete p (heap w)) (jvm w) (jni_log w))
    | _ => Undefined
    end.

(** Modelled from the spec: [JNI_NULL_CHECK(env, obj, error_msg, ret_val)]
    of the absent [cudf_jni_apis.hpp].  A null handle is signalled to
    the caller with [error_msg] and the function returns [ret_val] at
    once; otherwise the rest of the function body [rest] runs. *)
Definition JNI_NULL_CHECK {A} (obj : jlong) (error_msg : string) (ret_val : A)
    (rest : M A) : M A :=
  if decide (obj = 0) then (raise_error error_msg ;;; ret ret_val) else rest.

(** Modelled from the spec: [try { body } CATCH_STD(env, ret_val)] of
    the absent [cudf_jni_apis.hpp].  An exception leaving [body] is
    caught, translated into the managed runtime's error convention
    with its [what()] text, and the function returns [ret_val]. *)
Definition CATCH_STD {A} (body : M A) (ret_val : A) : M A :=
  fun w =>
    match body w with
    | Throws e w' => (raise_error (what e) ;;; ret ret_val) w'
    | r => r
    end.

(** *** The functions of ContiguousTableJni.cpp *)

Definition cache_contiguous_table_jni : M bool :=
  cls <- FindClass CONTIGUOUS_TABLE_CLASS ;;
  if decide (cls = nullptr) then ret false else
  m <- GetStaticMethodID cls "fromPackedTable" (CONTIGUOUS_TABLE_FACTORY_SIG "JJJJ") ;;
  set_From_packed_table_method m ;;;
  if decide (m = nullptr) then ret false else
  g <- NewGlobalRef cls ;;
  set_Contiguous_table_jclass g ;;;
  if decide (g = nullptr) then ret false else
  ret true.

Definition release_contiguous_table_jni : M unit :=
  cls <- get_Contiguous_table_jclass ;;
  if decide (cls <> nullptr) then
    DeleteGlobalRef cls ;;;
    set_Contiguous_table_jclass nullptr
  else ret tt.

(** [split] is passed by reference: its value on return is part of
    the result. *)
Definition contiguous_table_from (split : packed_columns)
    : M (jobject * packed_columns) :=
  let metadata_address := to_jlong (metadata split) in
  buf <- deref_device_buffer (gpu_data split) ;;
  let data_address := to_jlong (fst buf) in
  let data_size := to_jlong (snd buf) in
  let rmm_buffer_address := to_jlong (gpu_data split) in
  cls <- get_Contiguous_table_jclass ;;
  m <- get_From_packed_table_method ;;
  contig_table_obj <-
    CallStaticObjectMethod cls m
      [metadata_address; data_address; data_size; rmm_buffer_address] ;;
  if decide (contig_table_obj <> nullptr) then
    ret (contig_table_obj, release_gpu_data (release_metadata split))
  else
    ret (contig_table_obj, split).

Definition Java_ai_rapids_cudf_ContiguousTable_createMetadataDirectBuffer
    (j_metadata_ptr : jlong) : M jobject :=
  JNI_NULL_CHECK j_metadata_ptr "metadata is null" nullptr
    (CATCH_STD
       (let metadata := to_pointer j_metadata_ptr in
        v <- deref_vector metadata ;;
        NewDirectByteBuffer (fst v) (to_jlong (snd v)))
       nullptr).

Definition Java_ai_rapids_cudf_ContiguousTable_closeMetadata
    (j_metadata_ptr : jlong) : M unit :=
  JNI_NULL_CHECK j_metadata_ptr "metadata is null" tt
    (CATCH_STD
       (let metadata := to_pointer j_metadata_ptr in
        delete_vector metadata)
       tt).

End Shim.

(** *** A scripted runtime, to run the shim on concrete inputs

    The runtime state is the list of handles still to be handed out:
    every call that returns a handle takes the next one ([nullptr] once
    the script is used up). *)
Definition next_handle {A} (_ : A) (script : list Z) : Z * list Z :=
  (hd nullptr script, tl script).

#[export] Instance scripted : JNIEnv (list Z) := {
  jvm_FindClass name := next_handle name;
  jvm_GetStaticMethodID cls name sig := next_handle (cls, name, sig);
  jvm_NewGlobalRef obj := next_handle obj;
  jvm_DeleteGlobalRef obj script := (tt, script);
  jvm_CallStaticObjectMethod cls method args := next_handle (cls, method, args);
  jvm_NewDirectByteBuffer address capacity := next_handle (address, capacity);
  jvm_raise_error message script := (tt, script) }.

(** A native heap holding one packed table: 16 bytes of metadata in a
    vector at [4096] and a 1024-byte device buffer at [8192]. *)
Definition sample_heap : gmap Z native_object :=
  <[4096 := Vector 4128 16]> (<[8192 := DeviceBuffer 1048576 1024]> ∅).
Definition sample_split : packed_columns := PackedColumns 4096 8192.

(** The world before initialization, with a given script. *)
Definition fresh_world (script : list Z) : world :=
  World nullptr nullptr sample_heap script [].

(** The world after a successful initialization: class reference [9],
    factory method [7]. *)
Definition cached_world (script : list Z) : world :=
  World 9 7 sample_heap script [].

(** The world [cache_contiguous_table_jni] leaves when started in
    [fresh_world [5; 7; 9]]. *)
Definition initialized_world : world :=
  World 9 7 sample_heap ([] : list Z)
    [FindClass_call "ai/rapids/cudf/ContiguousTable";
     GetStaticMethodID_call 5 "fromPackedTable"
       "(JJJJ)Lai/rapids/cudf/ContiguousTable;";
     NewGlobalRef_call 5].

(** The world [release_contiguous_table_jni] leaves when started in
    [cached_world []]. *)
Definition released_world : world :=
  World nullptr 7 sample_heap ([] : list Z) [DeleteGlobalRef_call 9].

End ContiguousTableJni.

(** * Properties *)

Import TypeList.

Section TypeListFacts.

Implicit Types (A B : list type) (a b : type).

Lemma ConcatImpl_from acc (ls : list (list type)) :
  ConcatImpl (Types acc :: map Types ls) = Some (Types (acc ++ concat ls)).
Proof.
  revert acc; induction ls as [|l ls IH]; intros acc; simpl.
  - simp ConcatImpl. by rewrite app_nil_r.
  - simp ConcatImpl. simpl. simp ConcatImpl.
    rewrite IH. by rewrite app_assoc.
Qed.

Lemma Concat_lists (ls : list (list type)) :
  Concat (map Types ls) = Some (Types (concat ls)).
Proof.
  unfold Concat. destruct ls as [|l ls]; simpl.
  - by simp ConcatImpl.
  - apply ConcatImpl_from.
Qed.

Lemma Flatten_pair a b :
  is_plain a -> is_plain b -> Flatten (Types [a; b]) = Some (Types [a; b]).
Proof.
  destruct a as [na|]; [|done]. destruct b as [nb|]; [|done]. intros _ _.
  unfold Flatten. simp FlattenImpl. simpl. unfold Concat.
  simp ConcatImpl. simpl. simp ConcatImpl. simpl. by simp ConcatImpl.
Qed.

Lemma mapM_Prepend1 a B :
  is_plain a -> Forall is_plain B ->
  mapM (Prepend1 a) (map (fun b => Types [b]) B)
  = Some (map (fun b => Types [a; b]) B).
Proof.
  intros Ha HB. induction HB as [|b B Hb HB IH]; [done|].
  simpl. rewrite (Flatten_pair a b Ha Hb). simpl.
  rewrite IH. done.
Qed.

Lemma Prepend_singletons a B :
  is_plain a -> Forall is_plain B ->
  Prepend a (Types (map (fun b => Types [b]) B))
  = Some (Types (map (fun b => Types [a; b]) B)).
Proof.
  intros Ha HB. destruct B as [|b B]; simpl.
  - by simp Prepend.
  - simp Prepend.
    change (Types [b] :: map (fun b0 => Types [b0]) B)
      with (map (fun b0 => Types [b0]) (b :: B)).
    by rewrite mapM_Prepend1.
Qed.

Lemma mapM_Prepend A B :
  Forall is_plain A -> Forall is_plain B ->
  mapM (fun a => Prepend a (Types (map (fun b => Types [b]) B))) A
  = Some (map Types (map (fun a => map (fun b => Types [a; b]) B) A)).
Proof.
  intros HA HB. induction HA as [|a A Ha HA IH]; [done|].
  simpl. rewrite (Prepend_singletons a B Ha HB). simpl.
  rewrite IH. done.
Qed.

Lemma CrossJoin_pairs_of A B :
  Forall is_plain A -> Forall is_plain B ->
  CrossJoin [Types A; Types B] = Some (Types (pairs_of A B)).
Proof.
  intros HA HB. unfold CrossJoin. simp CrossJoinImpl. simpl.
  rewrite (mapM_Prepend A B HA HB). simpl.
  apply Concat_lists.
Qed.

Lemma pairs_of_length A B : length (pairs_of A B) = length A * length B.
Proof.
  unfold pairs_of. induction A as [|a A IH]; simpl; [done|].
  rewrite length_app, length_map, IH. done.
Qed.

Lemma pairs_of_lookup A B i j a b :
  A !! i = Some a -> B !! j = Some b ->
  pairs_of A B !! (i * length B + j) = Some (Types [a; b]).
Proof.
  unfold pairs_of. revert i. induction A as [|a' A IH]; intros i HA HB; [done|].
  simpl. destruct i as [|i]; simpl in *.
  - simplify_eq. rewrite lookup_app_l.
    + by rewrite list_lookup_fmap, HB.
    + rewrite length_map. by eapply lookup_lt_Some.
  - rewrite lookup_app_r; rewrite length_map; [|lia].
    replace (length B + i * length B + j - length B) with (i * length B + j) by lia.
    by apply IH.
Qed.

End TypeListFacts.

(** C3. For two type lists [Types<A...>] and [Types<B...>] whose elements
    are not themselves type lists, [CrossJoin] is well-formed and is the
    cartesian product: a type list of [m * n] inner lists, where the
    entry at position [i * n + j] is [Types<A_i, B_j>] (the index into
    the first list varies slowest). *)
Theorem CrossJoin_cartesian_product (A B : list type) :
  Forall is_plain A -> Forall is_plain B ->
  exists R : list type,
    CrossJoin [Types A; Types B] = Some (Types R) /\
    GetSize (Types R) = Some (length A * length B) /\
    (forall (i j : nat) (a b : type),
        A !! i = Some a -> B !! j = Some b ->
        R !! (i * length B + j) = Some (Types [a; b])).
Proof.
  intros HA HB. exists (pairs_of A B). split; [|split].
  - by apply CrossJoin_pairs_of.
  - simpl. by rewrite pairs_of_length.
  - intros i j a b. apply pairs_of_lookup.
Qed.

(** The example of the header's documentation, obtained from the theorem. *)
Lemma CrossJoin_cartesian_product_witness :
  Forall is_plain [Plain "int"; Plain "float"] /\
  Forall is_plain [Plain "char"; Plain "double"] /\
  exists R : list type,
    CrossJoin [Types [Plain "int"; Plain "float"];
               Types [Plain "char"; Plain "double"]] = Some (Types R) /\
    GetSize (Types R) = Some 4 /\
    R !! 0 = Some (Types [Plain "int"; Plain "char"]) /\
    R !! 1 = Some (Types [Plain "int"; Plain "double"]) /\
    R !! 2 = Some (Types [Plain "float"; Plain "char"]) /\
    R !! 3 = Some (Types [Plain "float"; Plain "double"]).
Proof.
  assert (HA : Forall is_plain [Plain "int"; Plain "float"])
    by (repeat constructor).
  assert (HB : Forall is_plain [Plain "char"; Plain "double"])
    by (repeat constructor).
  split; [exact HA|]. split; [exact HB|].
  destruct (CrossJoin_cartesian_product _ _ HA HB) as (R & HR & Hsz & Hix).
  exists R. split; [exact HR|]. split; [exact Hsz|].
  repeat split.
  - exact (Hix 0 0 _ _ eq_refl eq_refl).
  - exact (Hix 0 1 _ _ eq_refl eq_refl).
  - exact (Hix 1 0 _ _ eq_refl eq_refl).
  - exact (Hix 1 1 _ _ eq_refl eq_refl).
Defined.

(** The header's own example, by evaluation. *)
Example CrossJoin_doc_example :
  CrossJoin [Types [Plain "int"; Plain "float"];
             Types [Plain "char"; Plain "double"]]
  = Some (Types [Types [Plain "int"; Plain "char"];
                 Types [Plain "int"; Plain "double"];
                 Types [Plain "float"; Plain "char"];
                 Types [Plain "float"; Plain "double"]]).
Proof. reflexivity. Qed.

(** Why the elements must not be lists: [Prepend1] flattens. *)
Example CrossJoin_nested_element :
  CrossJoin [Types [Types [Plain "int"; Plain "float"]]; Types [Plain "char"]]
  = Some (Types [Types [Plain "int"; Plain "float"; Plain "char"]]).
Proof. reflexivity. Qed.



(** ** The JNI shim *)

Import ContiguousTableJni.
Local Open Scope Z_scope.

(** Unfolding of the monadic glue and of the primitive actions. *)
Ltac unfold_shim :=
  unfold JNI_NULL_CHECK, CATCH_STD,
    FindClass, GetStaticMethodID, NewGlobalRef, DeleteGlobalRef,
    CallStaticObjectMethod, NewDirectByteBuffer, raise_error, jni,
    deref_device_buffer, deref_vector, delete_vector,
    set_Contiguous_table_jclass, set_From_packed_table_method,
    get_Contiguous_table_jclass, get_From_packed_table_method,
    bind, ret, throw in *.

Section ShimFacts.

Context {JVM : Type} `{env : JNIEnv JVM}.
Implicit Types (w : @world JVM) (split : packed_columns).

Lemma to_jlong_small (n : Z) : 0 <= n < 2 ^ 63 -> to_jlong n = n.
Proof.
  intros Hn. unfold to_jlong.
  rewrite Z.mod_small by lia. lia.
Qed.

Lemma to_pointer_nonzero (j : jlong) :
  - 2 ^ 63 <= j < 2 ^ 63 -> j <> 0 -> to_pointer j <> nullptr.
Proof.
  intros Hr Hj. unfold to_pointer, nullptr.
  destruct (decide (0 <= j)).
  - rewrite Z.mod_small by lia. done.
  - replace j with (j + 2 ^ 64 - 1 * 2 ^ 64) by lia.
    rewrite Zminus_mod, Z_mod_mult, Z.sub_0_r, Z.mod_mod by lia.
    rewrite Z.mod_small by lia. lia.
Qed.

(** The factory signature the macro builds: four [J] (long) parameters,
    returning a [ContiguousTable]. *)
Example CONTIGUOUS_TABLE_FACTORY_SIG_JJJJ :
  CONTIGUOUS_TABLE_FACTORY_SIG "JJJJ" = "(JJJJ)Lai/rapids/cudf/ContiguousTable;".
Proof. reflexivity. Qed.

(** What one run of [contiguous_table_from] does, for either answer of
    the factory method. *)
Lemma contiguous_table_from_run split w data size obj j :
  heap w !! gpu_data split = Some (DeviceBuffer data size) ->
  jvm_CallStaticObjectMethod (Contiguous_table_jclass w)
    (From_packed_table_method w) (factory_args split data size) (jvm w)
  = (obj, j) ->
  contiguous_table_from split w
  = Normal (obj, if decide (obj <> nullptr)
                 then PackedColumns nullptr nullptr else split)
      (World (Contiguous_table_jclass w) (From_packed_table_method w) (heap w) j
         (jni_log w ++
          [CallStaticObjectMethod_call (Contiguous_table_jclass w)
             (From_packed_table_method w) (factory_args split data size)])).
Proof.
  intros Hbuf Hcall. unfold contiguous_table_from. unfold_shim.
  rewrite Hbuf. cbn [fst snd Contiguous_table_jclass From_packed_table_method
                     heap jvm jni_log].
  unfold factory_args in Hcall. rewrite Hcall.
  destruct (decide (obj <> nullptr)); reflexivity.
Qed.

(** What one run of [cache_contiguous_table_jni] does. *)
Lemma cache_contiguous_table_jni_run w cls j1 m j2 g j3 :
  jvm_FindClass CONTIGUOUS_TABLE_CLASS (jvm w) = (cls, j1) ->
  jvm_GetStaticMethodID cls "fromPackedTable"
    "(JJJJ)Lai/rapids/cudf/ContiguousTable;" j1 = (m, j2) ->
  jvm_NewGlobalRef cls j2 = (g, j3) ->
  cache_contiguous_table_jni w =
    if decide (cls = nullptr) then
      Normal false
        (World (Contiguous_table_jclass w) (From_packed_table_method w) (heap w) j1
           (jni_log w ++ [FindClass_call CONTIGUOUS_TABLE_CLASS]))
    else if decide (m = nullptr) then
      Normal false
        (World (Contiguous_table_jclass w) m (heap w) j2
           ((jni_log w ++ [FindClass_call CONTIGUOUS_TABLE_CLASS]) ++
            [GetStaticMethodID_call cls "fromPackedTable"
               "(JJJJ)Lai/rapids/cudf/ContiguousTable;"]))
    else
      Normal (bool_decide (g <> nullptr))
        (World g m (heap w) j3
           (((jni_log w ++ [FindClass_call CONTIGUOUS_TABLE_CLASS]) ++
             [GetStaticMethodID_call cls "fromPackedTable"
                "(JJJJ)Lai/rapids/cudf/ContiguousTable;"]) ++
            [NewGlobalRef_call cls])).
Proof.
  intros Hc Hm Hg. unfold cache_contiguous_table_jni. unfold_shim.
  rewrite Hc. destruct (decide (cls = nullptr)); [reflexivity|].
  cbn [Contiguous_table_jclass From_packed_table_method heap jvm jni_log].
  change (CONTIGUOUS_TABLE_FACTORY_SIG "JJJJ")
    with "(JJJJ)Lai/rapids/cudf/ContiguousTable;".
  rewrite Hm.
  cbn [Contiguous_table_jclass From_packed_table_method heap jvm jni_log].
  destruct (decide (m = nullptr)); [reflexivity|].
  cbn [Contiguous_table_jclass From_packed_table_method heap jvm jni_log].
  rewrite Hg.
  cbn [Contiguous_table_jclass From_packed_table_method heap jvm jni_log].
  destruct (decide (g = nullptr)) as [->|Hne].
  - reflexivity.
  - rewrite bool_decide_eq_true_2 by done. reflexivity.
Qed.

(** A successful initialization, read backwards. *)
Lemma cache_contiguous_table_jni_success w0 w :
  cache_contiguous_table_jni w0 = Normal true w ->
  exists cls j1 j2 j3,
    jvm_FindClass CONTIGUOUS_TABLE_CLASS (jvm w0) = (cls, j1) /\
    jvm_GetStaticMethodID cls "fromPackedTable"
      "(JJJJ)Lai/rapids/cudf/ContiguousTable;" j1
    = (From_packed_table_method w, j2) /\
    jvm_NewGlobalRef cls j2 = (Contiguous_table_jclass w, j3) /\
    cls <> nullptr /\ From_packed_table_method w <> nullptr /\
    Contiguous_table_jclass w <> nullptr.
Proof.
  destruct (jvm_FindClass CONTIGUOUS_TABLE_CLASS (jvm w0)) as [cls j1] eqn:Hc.
  destruct (jvm_GetStaticMethodID cls "fromPackedTable"
              "(JJJJ)Lai/rapids/cudf/ContiguousTable;" j1) as [m j2] eqn:Hm.
  destruct (jvm_NewGlobalRef cls j2) as [g j3] eqn:Hg.
  rewrite (cache_contiguous_table_jni_run w0 cls j1 m j2 g j3 Hc Hm Hg).
  destruct (decide (cls = nullptr)); [discriminate|].
  destruct (decide (m = nullptr)); [discriminate|].
  intros H. injection H as Hb Hw. subst w. simpl.
  apply bool_decide_eq_true_1 in Hb.
  exists cls, j1, j2, j3. rewrite Hm, Hg. done.
Qed.

(** What one run of [release_contiguous_table_jni] does. *)
Lemma release_contiguous_table_jni_run w :
  release_contiguous_table_jni w =
    if decide (Contiguous_table_jclass w <> nullptr) then
      Normal tt
        (World nullptr (From_packed_table_method w) (heap w)
           (snd (jvm_DeleteGlobalRef (Contiguous_table_jclass w) (jvm w)))
           (jni_log w ++ [DeleteGlobalRef_call (Contiguous_table_jclass w)]))
    else Normal tt w.
Proof.
  unfold release_contiguous_table_jni. unfold_shim.
  destruct (decide (Contiguous_table_jclass w <> nullptr)); [|reflexivity].
  destruct (jvm_DeleteGlobalRef (Contiguous_table_jclass w) (jvm w)) as [[] j].
  reflexivity.
Qed.

(** C1. Whenever the factory method called by [contiguous_table_from]
    returns a non-null object, the function returns that object with both
    owning pointers of the packed table released (null), and it frees
    neither buffer: the native heap is unchanged. *)
Theorem contiguous_table_from_transfers_ownership split w data size obj j :
  heap w !! gpu_data split = Some (DeviceBuffer data size) ->
  jvm_CallStaticObjectMethod (Contiguous_table_jclass w)
    (From_packed_table_method w)
    [to_jlong (metadata split); to_jlong data; to_jlong size;
     to_jlong (gpu_data split)] (jvm w) = (obj, j) ->
  obj <> nullptr ->
  exists split' w',
    contiguous_table_from split w = Normal (obj, split') w' /\
    metadata split' = nullptr /\ gpu_data split' = nullptr /\
    heap w' = heap w.
Proof.
  intros Hbuf Hcall Hobj.
  rewrite (contiguous_table_from_run split w data size obj j Hbuf Hcall).
  rewrite decide_True by done.
  eexists _, _. split; [reflexivity|]. done.
Qed.

(** C2. [contiguous_table_from] makes exactly one call through the JNI
    interface: the static-method call on the cached class and method
    handle with the four arguments metadata pointer, data pointer, data
    size, device-buffer pointer, in this order; its result is the object
    returned.  The cached method handle is the one looked up under the
    name [fromPackedTable] with the four-long signature. *)
Theorem contiguous_table_from_single_factory_call :
  (forall split w data size,
     heap w !! gpu_data split = Some (DeviceBuffer data size) ->
     exists split' w',
       contiguous_table_from split w
       = Normal (fst (jvm_CallStaticObjectMethod (Contiguous_table_jclass w)
                        (From_packed_table_method w)
                        [to_jlong (metadata split); to_jlong data;
                         to_jlong size; to_jlong (gpu_data split)] (jvm w)),
                 split') w' /\
       jni_log w' =
         (jni_log w ++
          [CallStaticObjectMethod_call (Contiguous_table_jclass w)
             (From_packed_table_method w)
             [to_jlong (metadata split); to_jlong data; to_jlong size;
              to_jlong (gpu_data split)]])%list) /\
  (forall w0 w,
     cache_contiguous_table_jni w0 = Normal true w ->
     exists cls j1 j2,
       jvm_FindClass "ai/rapids/cudf/ContiguousTable" (jvm w0) = (cls, j1) /\
       jvm_GetStaticMethodID cls "fromPackedTable"
         "(JJJJ)Lai/rapids/cudf/ContiguousTable;" j1
       = (From_packed_table_method w, j2)).
Proof.
  split.
  - intros split w data size Hbuf.
    destruct (jvm_CallStaticObjectMethod (Contiguous_table_jclass w)
                (From_packed_table_method w) (factory_args split data size)
                (jvm w)) as [obj j] eqn:Hcall.
    rewrite (contiguous_table_from_run split w data size obj j Hbuf Hcall).
    unfold factory_args in Hcall. rewrite Hcall.
    eexists _, _. split; reflexivity.
  - intros w0 w Hok.
    destruct (cache_contiguous_table_jni_success w0 w Hok)
      as (cls & j1 & j2 & j3 & Hc & Hm & _).
    exists cls, j1, j2. done.
Qed.

(** C4. [cache_contiguous_table_jni] always returns normally with a
    boolean: [false] when the class lookup, the method lookup or the
    global-reference creation yields null, [true] otherwise.  It raises
    nothing itself: the calls it makes are lookups only. *)
Theorem cache_contiguous_table_jni_boolean_result w cls j1 m j2 g j3 :
  jvm_FindClass CONTIGUOUS_TABLE_CLASS (jvm w) = (cls, j1) ->
  jvm_GetStaticMethodID cls "fromPackedTable"
    "(JJJJ)Lai/rapids/cudf/ContiguousTable;" j1 = (m, j2) ->
  jvm_NewGlobalRef cls j2 = (g, j3) ->
  exists w' calls,
    cache_contiguous_table_jni w
    = Normal (bool_decide (cls <> nullptr /\ m <> nullptr /\ g <> nullptr)) w' /\
    jni_log w' = (jni_log w ++ calls)%list /\
    (forall message, raise_error_call message ∉ calls).
Proof.
  intros Hc Hm Hg.
  rewrite (cache_contiguous_table_jni_run w cls j1 m j2 g j3 Hc Hm Hg).
  destruct (decide (cls = nullptr)) as [->|Hcls].
  - eexists _, _. split; [|split].
    + rewrite bool_decide_eq_false_2 by (intros [? _]; done). reflexivity.
    + reflexivity.
    + intros msg Hin. apply list_elem_of_singleton in Hin. discriminate.
  - destruct (decide (m = nullptr)) as [->|Hmn].
    + eexists _, _. split; [|split].
      * rewrite bool_decide_eq_false_2 by (intros (_ & ? & _); done).
        reflexivity.
      * simpl. rewrite <- app_assoc. reflexivity.
      * intros msg Hin. simpl in Hin.
        repeat (apply elem_of_cons in Hin as [Hin|Hin]; [discriminate|]).
        by apply elem_of_nil in Hin.
    + eexists _, _. split; [|split].
      * f_equal. apply bool_decide_ext. tauto.
      * simpl. rewrite <- !app_assoc. reflexivity.
      * intros msg Hin. simpl in Hin.
        repeat (apply elem_of_cons in Hin as [Hin|Hin]; [discriminate|]).
        by apply elem_of_nil in Hin.
Qed.

(** C9. Whenever the factory method returns null, [contiguous_table_from]
    returns null and leaves the packed table as it was: both owning
    pointers keep their values and the native heap is unchanged. *)
Theorem contiguous_table_from_failed_construction split w data size j :
  heap w !! gpu_data split = Some (DeviceBuffer data size) ->
  jvm_CallStaticObjectMethod (Contiguous_table_jclass w)
    (From_packed_table_method w)
    [to_jlong (metadata split); to_jlong data; to_jlong size;
     to_jlong (gpu_data split)] (jvm w) = (nullptr, j) ->
  exists w',
    contiguous_table_from split w = Normal (nullptr, split) w' /\
    heap w' = heap w.
Proof.
  intros Hbuf Hcall.
  rewrite (contiguous_table_from_run split w data size nullptr j Hbuf Hcall).
  rewrite decide_False by (intros H; by apply H).
  eexists. split; reflexivity.
Qed.

(** C5. With a null metadata handle, each exported entry point signals
    the error ("metadata is null") and returns at once with its failure
    value: no other JNI call is made, the heap is untouched (nothing is
    read or deleted) and the globals keep their values. *)
Theorem null_handle_rejected_before_any_work w :
  (exists w',
     Java_ai_rapids_cudf_ContiguousTable_createMetadataDirectBuffer 0 w
     = Normal nullptr w' /\
     jni_log w' = (jni_log w ++ [raise_error_call "metadata is null"])%list /\
     heap w' = heap w /\
     Contiguous_table_jclass w' = Contiguous_table_jclass w /\
     From_packed_table_method w' = From_packed_table_method w) /\
  (exists w',
     Java_ai_rapids_cudf_ContiguousTable_closeMetadata 0 w = Normal tt w' /\
     jni_log w' = (jni_log w ++ [raise_error_call "metadata is null"])%list /\
     heap w' = heap w /\
     Contiguous_table_jclass w' = Contiguous_table_jclass w /\
     From_packed_table_method w' = From_packed_table_method w).
Proof.
  unfold Java_ai_rapids_cudf_ContiguousTable_createMetadataDirectBuffer,
    Java_ai_rapids_cudf_ContiguousTable_closeMetadata.
  unfold_shim. rewrite !decide_True by reflexivity.
  destruct (jvm_raise_error "metadata is null" (jvm w)) as [[] j].
  split; eexists; (split; [reflexivity|done]).
Qed.

(** C6. An exception leaving the body of a [try] closed by [CATCH_STD]
    is caught: the error is handed to the managed runtime with the
    exception's text and the function returns its failure value.  No
    exported entry point ever ends with an exception in flight. *)
Theorem exceptions_stop_at_the_boundary :
  (forall (A : Type) (body : M A) (ret_val : A) w e w1,
     body w = Throws e w1 ->
     exists w',
       CATCH_STD body ret_val w = Normal ret_val w' /\
       jni_log w' = (jni_log w1 ++ [raise_error_call (what e)])%list /\
       heap w' = heap w1) /\
  (forall j_metadata_ptr w e w',
     Java_ai_rapids_cudf_ContiguousTable_createMetadataDirectBuffer
       j_metadata_ptr w <> Throws e w') /\
  (forall j_metadata_ptr w e w',
     Java_ai_rapids_cudf_ContiguousTable_closeMetadata j_metadata_ptr w
     <> Throws e w').
Proof.
  split; [|split].
  - intros A body ret_val w e w1 Hbody. unfold_shim. rewrite Hbody.
    destruct (jvm_raise_error (what e) (jvm w1)) as [[] j].
    eexists. split; [reflexivity|done].
  - intros p w e w'.
    unfold Java_ai_rapids_cudf_ContiguousTable_createMetadataDirectBuffer.
    unfold_shim. destruct (decide (p = 0)).
    + destruct (jvm_raise_error _ _) as [[] j]. discriminate.
    + destruct (heap w !! to_pointer p) as [[d sz|d sz]|]; try discriminate.
      cbn [fst snd]. destruct (jvm_NewDirectByteBuffer _ _ _). discriminate.
  - intros p w e w'.
    unfold Java_ai_rapids_cudf_ContiguousTable_closeMetadata.
    unfold_shim. destruct (decide (p = 0)).
    + destruct (jvm_raise_error _ _) as [[] j]. discriminate.
    + destruct (decide (to_pointer p = nullptr)); [discriminate|].
      destruct (heap w !! to_pointer p) as [[d sz|d sz]|]; discriminate.
Qed.

(** C7. For a non-null handle of a live metadata vector,
    [createMetadataDirectBuffer] returns the direct byte buffer the
    runtime makes for the vector's data pointer and its size in bytes
    (changing nothing else), and [closeMetadata] deallocates the
    vector. *)
Theorem metadata_view_and_release j_metadata_ptr w data size buffer j :
  - 2 ^ 63 <= j_metadata_ptr < 2 ^ 63 ->
  j_metadata_ptr <> 0 ->
  heap w !! to_pointer j_metadata_ptr = Some (Vector data size) ->
  0 <= size < 2 ^ 63 ->
  jvm_NewDirectByteBuffer data size (jvm w) = (buffer, j) ->
  Java_ai_rapids_cudf_ContiguousTable_createMetadataDirectBuffer j_metadata_ptr w
  = Normal buffer
      (World (Contiguous_table_jclass w) (From_packed_table_method w) (heap w) j
         (jni_log w ++ [NewDirectByteBuffer_call data size])) /\
  Java_ai_rapids_cudf_ContiguousTable_closeMetadata j_metadata_ptr w
  = Normal tt
      (World (Contiguous_table_jclass w) (From_packed_table_method w)
         (delete (to_pointer j_metadata_ptr) (heap w)) (jvm w) (jni_log w)).
Proof.
  intros Hrange Hnz Hvec Hsize Hbuf.
  pose proof (to_pointer_nonzero j_metadata_ptr Hrange Hnz) as Hp.
  unfold Java_ai_rapids_cudf_ContiguousTable_createMetadataDirectBuffer,
    Java_ai_rapids_cudf_ContiguousTable_closeMetadata.
  unfold_shim. rewrite !decide_False by done. rewrite Hvec.
  cbn [fst snd]. rewrite (to_jlong_small size Hsize), Hbuf.
  split; reflexivity.
Qed.

(** C8, as the code has it.  The process-wide state is the pair of
    cached handles, both set (non-null) by a successful initialization.
    [release_contiguous_table_jni] tears down the class reference only:
    afterwards the cached class reference is null, its global reference
    having been deleted if it was set, and the cached method handle
    keeps its value; nothing else changes. *)
Theorem release_contiguous_table_jni_clears_class_reference :
  (forall w0 w,
     cache_contiguous_table_jni w0 = Normal true w ->
     Contiguous_table_jclass w <> nullptr /\
     From_packed_table_method w <> nullptr) /\
  (forall w,
     exists w',
       release_contiguous_table_jni w = Normal tt w' /\
       Contiguous_table_jclass w' = nullptr /\
       From_packed_table_method w' = From_packed_table_method w /\
       heap w' = heap w /\
       jni_log w' =
         (jni_log w ++
          if decide (Contiguous_table_jclass w <> nullptr)
          then [DeleteGlobalRef_call (Contiguous_table_jclass w)]
          else [])%list).
Proof.
  split.
  - intros w0 w Hok.
    destruct (cache_contiguous_table_jni_success w0 w Hok)
      as (cls & j1 & j2 & j3 & _ & _ & _ & _ & Hm & Hg).
    done.
  - intros w. rewrite release_contiguous_table_jni_run.
    destruct (decide (Contiguous_table_jclass w <> nullptr)) as [Hne|He].
    + eexists. split; [reflexivity|done].
    + exists w. split; [reflexivity|].
      apply dec_stable in He. rewrite app_nil_r. done.
Qed.

(** C10. [release_contiguous_table_jni] changes nothing when the cached
    class reference is already null, so running it twice in a row is the
    same as running it once. *)
Theorem release_contiguous_table_jni_idempotent :
  (forall w,
     Contiguous_table_jclass w = nullptr ->
     release_contiguous_table_jni w = Normal tt w) /\
  (forall w,
     bind release_contiguous_table_jni (fun _ => release_contiguous_table_jni) w
     = release_contiguous_table_jni w).
Proof.
  assert (Hnull : forall w, Contiguous_table_jclass w = nullptr ->
                            release_contiguous_table_jni w = Normal tt w).
  { intros w Hw. rewrite release_contiguous_table_jni_run.
    rewrite decide_False; [reflexivity|]. intros Hne. by apply Hne. }
  split; [exact Hnull|].
  intros w. unfold bind at 1.
  rewrite (release_contiguous_table_jni_run w).
  destruct (decide (Contiguous_table_jclass w <> nullptr)) as [Hne|He].
  - by apply Hnull.
  - apply dec_stable in He. by apply Hnull.
Qed.

End ShimFacts.

(** ** The theorems at work on the scripted runtime *)

(** C1 on the sample table, the factory answering with object [42]. *)
Lemma contiguous_table_from_transfers_ownership_witness :
  exists split' w',
    contiguous_table_from sample_split (cached_world [42])
    = Normal (42, split') w' /\
    metadata split' = nullptr /\ gpu_data split' = nullptr /\
    heap w' = sample_heap.
Proof.
  apply (contiguous_table_from_transfers_ownership (env := scripted)
           sample_split (cached_world [42]) 1048576 1024 42 []).
  - vm_compute. reflexivity.
  - reflexivity.
  - discriminate.
Defined.

(** C2 on the sample table, right after an initialization that was
    handed class [5], method [7] and global reference [9]. *)
Lemma contiguous_table_from_single_factory_call_witness :
  (exists split' w',
     contiguous_table_from sample_split (cached_world [42])
     = Normal (42, split') w' /\
     jni_log w' = [CallStaticObjectMethod_call 9 7 [4096; 1048576; 1024; 8192]]) /\
  (exists cls j1 j2,
     jvm_FindClass "ai/rapids/cudf/ContiguousTable" [5; 7; 9] = (cls, j1) /\
     jvm_GetStaticMethodID cls "fromPackedTable"
       "(JJJJ)Lai/rapids/cudf/ContiguousTable;" j1 = (7, j2)).
Proof.
  split.
  - apply (proj1 (contiguous_table_from_single_factory_call (env := scripted))
             sample_split (cached_world [42]) 1048576 1024).
    vm_compute. reflexivity.
  - apply (proj2 (contiguous_table_from_single_factory_call (env := scripted))
             (fresh_world [5; 7; 9]) initialized_world).
    vm_compute. reflexivity.
Defined.

(** C4 when the method lookup fails: the script hands out a class but
    then a null method handle. *)
Lemma cache_contiguous_table_jni_boolean_result_witness :
  exists w' calls,
    cache_contiguous_table_jni (fresh_world [5; 0; 9]) = Normal false w' /\
    jni_log w' = calls /\
    (forall message, raise_error_call message ∉ calls).
Proof.
  apply (cache_contiguous_table_jni_boolean_result (env := scripted)
           (fresh_world [5; 0; 9]) 5 [0; 9] 0 [9] 9 []); reflexivity.
Defined.

(** C6 on a body that throws. *)
Lemma exceptions_stop_at_the_boundary_witness :
  exists w',
    CATCH_STD (throw (Exception "std::bad_alloc")) nullptr (cached_world [])
    = Normal nullptr w' /\
    jni_log w' = [raise_error_call "std::bad_alloc"] /\
    heap w' = sample_heap.
Proof.
  apply (proj1 (exceptions_stop_at_the_boundary (env := scripted))
           jobject (throw (Exception "std::bad_alloc")) nullptr
           (cached_world []) (Exception "std::bad_alloc") (cached_world [])).
  reflexivity.
Defined.

(** C7 on the sample metadata vector. *)
Lemma metadata_view_and_release_witness :
  Java_ai_rapids_cudf_ContiguousTable_createMetadataDirectBuffer 4096
    (cached_world [77])
  = Normal 77 (World 9 7 sample_heap [] [NewDirectByteBuffer_call 4128 16]) /\
  Java_ai_rapids_cudf_ContiguousTable_closeMetadata 4096 (cached_world [77])
  = Normal tt (World 9 7 (delete 4096 sample_heap) [77] []).
Proof.
  apply (metadata_view_and_release (env := scripted)
           4096 (cached_world [77]) 4128 16 77 []).
  - lia.
  - discriminate.
  - vm_compute. reflexivity.
  - lia.
  - reflexivity.
Defined.

(** C8 at a concrete state: initialization is handed class [5], method
    [7] and global reference [9]; after the release the class reference
    is null but the method handle [7] is still cached. *)
Lemma release_contiguous_table_jni_keeps_method_handle :
  cache_contiguous_table_jni (fresh_world [5; 7; 9])
  = Normal true initialized_world /\
  release_contiguous_table_jni (cached_world []) = Normal tt released_world /\
  ~ (Contiguous_table_jclass released_world = nullptr /\
     From_packed_table_method released_world = nullptr).
Proof.
  split; [vm_compute; reflexivity|].
  split; [vm_compute; reflexivity|].
  intros [_ H]. discriminate H.
Qed.

(** The amended C8 on the same run. *)
Lemma release_contiguous_table_jni_clears_class_reference_witness :
  cache_contiguous_table_jni (fresh_world [5; 7; 9])
  = Normal true initialized_world /\
  Contiguous_table_jclass initialized_world <> nullptr /\
  From_packed_table_method initialized_world <> nullptr.
Proof.
  assert (H : cache_contiguous_table_jni (fresh_world [5; 7; 9])
              = Normal true initialized_world) by (vm_compute; reflexivity).
  split; [exact H|].
  exact (proj1 (release_contiguous_table_jni_clears_class_reference
                  (env := scripted))
           (fresh_world [5; 7; 9]) initialized_world H).
Defined.

(** C9 on the sample table, the factory answering null. *)
Lemma contiguous_table_from_failed_construction_witness :
  exists w',
    contiguous_table_from sample_split (cached_world [])
    = Normal (nullptr, sample_split) w' /\
    heap w' = sample_heap.
Proof.
  apply (contiguous_table_from_failed_construction (env := scripted)
           sample_split (cached_world []) 1048576 1024 []).
  - vm_compute. reflexivity.
  - reflexivity.
Defined.

(** C10 before any initialization. *)
Lemma release_contiguous_table_jni_idempotent_witness :
  release_contiguous_table_jni (fresh_world [5; 7; 9])
  = Normal tt (fresh_world [5; 7; 9]).
Proof.
  apply (proj1 (release_contiguous_table_jni_idempotent (env := scripted))).
  reflexivity.
Defined.

(** ** More of the type-list header *)

Section TypeListMore.

Local Open Scope nat_scope.
Implicit Types (A B T : list type) (a b t : type) (D : Z).

(** Induction on types that reaches the elements of a type list. *)
Lemma type_ind_nested (P : type -> Prop) :
  (forall n, P (Plain n)) ->
  (forall ts, Forall P ts -> P (Types ts)) ->
  forall t, P t.
Proof.
  intros HP HT. fix IH 1. intros [n|ts]; [apply HP|].
  apply HT. induction ts as [|t ts IHts]; constructor; [apply IH|apply IHts].
Qed.

Lemma type_eqb_eq a b : type_eqb a b = true <-> a = b.
Proof.
  revert b. induction a as [n|ts IH] using type_ind_nested; intros [m|us]; simpl.
  - rewrite String.eqb_eq. split; congruence.
  - split; discriminate.
  - split; discriminate.
  - revert us. induction IH as [|t ts Ht _ IHts]; intros [|u us].
    + done.
    + split; discriminate.
    + split; discriminate.
    + rewrite andb_true_iff, Ht, IHts. split.
      * intros [-> H]. by injection H as ->.
      * intros H. by injection H as -> ->.
Qed.

Lemma type_eqb_refl a : type_eqb a a = true.
Proof. by apply type_eqb_eq. Qed.

Lemma type_eqb_neq a b : type_eqb a b = false <-> a <> b.
Proof.
  rewrite <- type_eqb_eq. destruct (type_eqb a b); split; congruence.
Qed.

Lemma size_pos t : 0 < size t.
Proof. destruct t; simpl; lia. Qed.

Lemma to_size_t_nonneg D : (0 <= D < 2 ^ 64)%Z -> to_size_t D = D.
Proof. intros H. unfold to_size_t. by rewrite Z.mod_small. Qed.

Lemma to_size_t_neg D : (- 2 ^ 64 <= D < 0)%Z -> to_size_t D = (D + 2 ^ 64)%Z.
Proof.
  intros H. unfold to_size_t.
  replace D with (D + 2 ^ 64 - 1 * 2 ^ 64)%Z at 1 by lia.
  rewrite Zminus_mod, Z_mod_mult, Z.sub_0_r, Z.mod_mod by lia.
  by rewrite Z.mod_small by lia.
Qed.

(** [GetType] is 0-based indexing, and any index outside the list is
    rejected by a [static_assert]. *)
Theorem GetType_lookup T D :
  (- 2 ^ 31 <= D < 2 ^ 31)%Z ->
  (Z.of_nat (length T) < 2 ^ 31)%Z ->
  GetType (Types T) D = if decide (0 <= D)%Z then T !! Z.to_nat D else None.
Proof.
  unfold GetType. revert D. induction T as [|h T IH]; intros D HD HT.
  - simp GetTypeImpl. by destruct (decide _).
  - simp GetTypeImpl.
    destruct (decide (D = 0%Z)) as [->|Hne]; simp GetTypeImpl; [done|].
    cbn [length] in *.
    destruct (decide (0 <= D)%Z) as [Hpos|Hneg].
    + rewrite to_size_t_nonneg by lia.
      destruct (decide (D < Z.of_nat (S (length T)))%Z) as [Hlt|Hge].
      * rewrite IH by lia. rewrite decide_True by lia.
        replace (Z.to_nat D) with (S (Z.to_nat (D - 1))) by lia. done.
      * symmetry. apply lookup_ge_None. cbn [length]. lia.
    + rewrite to_size_t_neg by lia.
      rewrite decide_False; [done|]. lia.
Qed.

(** [Concat] of type lists is their concatenation, in order; of no
    argument, the empty list. *)
Theorem Concat_concatenates (ls : list (list type)) :
  Concat (map Types ls) = Some (Types (concat ls)) /\
  GetSize (Types (concat ls)) = Some (list_sum (map length ls)).
Proof.
  split; [apply Concat_lists|].
  simpl. f_equal. induction ls as [|l ls IH]; simpl; [done|].
  by rewrite length_app, IH.
Qed.

Lemma ConcatImpl_plain_tail acc T n :
  Plain n ∈ T -> ConcatImpl (Types acc :: T) = None.
Proof.
  revert acc. induction T as [|x T IH]; intros acc Hin.
  - by apply elem_of_nil in Hin.
  - simp ConcatImpl. destruct x as [m|u]; simpl; [by simp ConcatImpl|].
    simp ConcatImpl. apply IH.
    apply elem_of_cons in Hin as [Hin|Hin]; [discriminate|done].
Qed.

(** With two or more arguments, [Concat] is ill-formed as soon as one
    argument is not a type list; a single argument is returned as it
    is, list or not. *)
Theorem Concat_non_list T n :
  Plain n ∈ T ->
  Concat T = if decide (length T = 1) then Some (Plain n) else None.
Proof.
  unfold Concat. intros Hin. destruct T as [|h1 [|h2 T]].
  - by apply elem_of_nil in Hin.
  - apply list_elem_of_singleton in Hin as <-. by simp ConcatImpl.
  - simpl. destruct h1 as [m|acc].
    + by simp ConcatImpl.
    + apply ConcatImpl_plain_tail with (n := n).
      apply elem_of_cons in Hin as [Hin|Hin]; [discriminate|done].
Qed.

Lemma leaves_plain T : Forall is_plain T -> flat_map leaves T = T.
Proof.
  induction 1 as [|t T Ht _ IH]; [done|].
  destruct t; [|done]. simpl. by rewrite IH.
Qed.

Lemma leaves_are_plain t : Forall is_plain (leaves t).
Proof.
  induction t as [n|ts IH] using type_ind_nested; simpl.
  - by repeat constructor.
  - induction IH as [|t ts Ht _ IHts]; simpl; [constructor|].
    by apply Forall_app.
Qed.

Lemma Flatten_leaves_bounded (k : nat) T :
  size (Types T) <= k -> Flatten (Types T) = Some (Types (flat_map leaves T)).
Proof.
  unfold Flatten. revert T. induction k as [|k IH]; intros T Hk.
  - simpl in Hk. lia.
  - destruct T as [|[n|H] TL].
    + by simp FlattenImpl.
    + simp FlattenImpl. rewrite IH by (simpl in *; lia). simpl.
      unfold Concat. simp ConcatImpl. simpl. by simp ConcatImpl.
    + simp FlattenImpl. rewrite IH.
      * by rewrite flat_map_app.
      * simpl in *. rewrite map_app, list_sum_app. lia.
Qed.

(** [Flatten] is defined on every type list, however deeply nested, and
    yields the non-list types occurring in it, left to right. *)
Theorem Flatten_leaves T :
  Flatten (Types T) = Some (Types (leaves (Types T))) /\
  Forall is_plain (leaves (Types T)).
Proof.
  split.
  - by apply (Flatten_leaves_bounded (size (Types T))).
  - apply leaves_are_plain.
Qed.

(** Flattening a flattened list changes nothing; in particular a list
    without nested lists is its own flattening. *)
Theorem Flatten_idempotent T R :
  Flatten (Types T) = Some R -> Flatten R = Some R.
Proof.
  intros H.
  rewrite (Flatten_leaves_bounded (size (Types T))) in H by done.
  injection H as <-.
  rewrite (Flatten_leaves_bounded (size (Types (flat_map leaves T)))) by done.
  do 2 f_equal. apply leaves_plain. apply (leaves_are_plain (Types T)).
Qed.

Lemma singletons_product (L : list type) :
  map (fun x => Types [x]) L = map Types (product [L]).
Proof.
  simpl. induction L as [|a L IH]; simpl; [done|]. by rewrite IH.
Qed.

Lemma product_elem (Ls : list (list type)) (tu : list type) :
  tu ∈ product Ls <-> Forall2 (fun x L => x ∈ L) tu Ls.
Proof.
  revert tu. induction Ls as [|L Ls IH]; intros tu; simpl.
  - rewrite list_elem_of_singleton. split.
    + intros ->. constructor.
    + intros H. by apply Forall2_nil_inv_r in H.
  - rewrite list_elem_of_In, in_flat_map. split.
    + intros (a & Ha & Ht). apply in_map_iff in Ht as (tu' & <- & Ht').
      constructor; [by apply list_elem_of_In|].
      apply IH. by apply list_elem_of_In.
    + intros H. apply Forall2_cons_inv_r in H as (a & tu' & Ha & Ht' & ->).
      exists a. split; [by apply list_elem_of_In|].
      apply in_map_iff. exists tu'. split; [done|].
      apply list_elem_of_In. by apply IH.
Qed.

Lemma product_length (Ls : list (list type)) :
  length (product Ls) = foldr (fun L n => length L * n) 1 Ls.
Proof.
  induction Ls as [|L Ls IH]; simpl; [done|].
  rewrite <- IH. generalize (product Ls) as P. intros P.
  induction L as [|a L IHL]; simpl; [done|].
  by rewrite length_app, length_map, IHL.
Qed.

Lemma product_tuples (L : list type) (Ls : list (list type)) :
  Forall (Forall is_plain) (L :: Ls) ->
  Forall (fun tu => Forall is_plain tu /\ tu <> []) (product (L :: Ls)).
Proof.
  intros HLs. apply Forall_forall. intros tu Ht.
  apply product_elem in Ht. split.
  - clear -HLs Ht. revert HLs Ht. generalize (L :: Ls) as Ms.
    intros Ms HMs Ht. revert HMs.
    induction Ht as [|x M tu Ms' Hx _ IH]; intros HMs; [constructor|].
    apply Forall_cons in HMs as [HM HMs]. constructor; [|by apply IH].
    by eapply Forall_forall in HM.
  - intros ->. by apply Forall2_nil_inv_l in Ht.
Qed.

Lemma Prepend1_plain a tu :
  is_plain a -> Forall is_plain tu ->
  Prepend1 a (Types tu) = Some (Types (a :: tu)).
Proof.
  intros Ha Ht. unfold Prepend1.
  rewrite (Flatten_leaves_bounded (size (Types (a :: tu)))) by done.
  by rewrite leaves_plain by by constructor.
Qed.

Lemma Prepend_tuples a (P : list (list type)) :
  is_plain a ->
  Forall (fun tu => Forall is_plain tu /\ tu <> []) P ->
  Prepend a (Types (map Types P))
  = Some (Types (map (fun tu => Types (a :: tu)) P)).
Proof.
  intros Ha HP.
  assert (HM : mapM (Prepend1 a) (map Types P)
               = Some (map (fun tu => Types (a :: tu)) P)).
  { induction HP as [|tu P [Ht _] _ IH]; [done|].
    cbn [map mapM]. rewrite (Prepend1_plain a tu Ha Ht). simpl.
    rewrite IH. done. }
  destruct HP as [|tu P [Ht Hne] HP]; simpl.
  - by simp Prepend.
  - destruct tu as [|x tu]; [done|]. simp Prepend.
    change (Types (x :: tu) :: map Types P)
      with (map Types ((x :: tu) :: P)).
    by rewrite HM.
Qed.

Lemma concat_tuples (L : list type) (P : list (list type)) :
  concat (map (fun a => map (fun tu => Types (a :: tu)) P) L)
  = map Types (flat_map (fun a => map (cons a) P) L).
Proof.
  induction L as [|a L IH]; simpl; [done|].
  rewrite IH, map_app, map_map. done.
Qed.

Lemma CrossJoinImpl_product (L : list type) (Ls : list (list type)) :
  Forall (Forall is_plain) (L :: Ls) ->
  CrossJoinImpl (map Types (L :: Ls))
  = Some (Types (map Types (product (L :: Ls)))).
Proof.
  revert L. induction Ls as [|L2 Ls IH]; intros L HLs.
  - cbn [map]. simp CrossJoinImpl. by rewrite singletons_product.
  - apply Forall_cons in HLs as [HL HLs].
    cbn [map]. simp CrossJoinImpl.
    change (Types L2 :: map Types Ls) with (map Types (L2 :: Ls)).
    rewrite (IH L2 HLs).
    pose proof (product_tuples L2 Ls HLs) as HP.
    set (P := product (L2 :: Ls)) in *.
    assert (HM : mapM (fun x => Some (Types (map Types P)) ≫= Prepend x) L
                 = Some (map Types
                           (map (fun a => map (fun tu => Types (a :: tu)) P) L))).
    { induction HL as [|a L Ha _ IHL]; [done|].
      cbn [map mapM]. simpl. rewrite (Prepend_tuples a P Ha HP). simpl.
      simpl in IHL. rewrite IHL. done. }
    rewrite HM. simpl. rewrite Concat_lists.
    by rewrite concat_tuples.
Qed.

(** [CrossJoin] of one or more lists of non-list types is their
    cartesian product, the first list's index varying slowest: its size
    is the product of the sizes, and its entries are exactly the lists
    that pick one element from each argument, in order. *)
Theorem CrossJoin_product (L : list type) (Ls : list (list type)) :
  Forall (Forall is_plain) (L :: Ls) ->
  CrossJoin (map Types (L :: Ls)) = Some (Types (map Types (product (L :: Ls)))) /\
  GetSize (Types (map Types (product (L :: Ls))))
  = Some (foldr (fun M n => length M * n) 1 (L :: Ls)) /\
  (forall tu, tu ∈ product (L :: Ls) <-> Forall2 (fun x M => x ∈ M) tu (L :: Ls)).
Proof.
  intros HLs. split; [|split].
  - by apply CrossJoinImpl_product.
  - cbn [GetSize]. by rewrite length_map, product_length.
  - apply product_elem.
Qed.

Lemma AllSame_forallb a b T :
  AllSame (a :: b :: T) = forallb (type_eqb a) (b :: T).
Proof.
  revert b. induction T as [|c T IH]; intros b.
  - simpl. rewrite andb_true_r. destruct a; by simp AllSame.
  - assert (H : AllSame (a :: b :: c :: T)
                = if type_eqb a b then AllSame (a :: c :: T) else false)
      by (destruct a; by simp AllSame).
    rewrite H, IH. simpl. by destruct (type_eqb a b).
Qed.

Lemma AllSame_iff a b T :
  AllSame (a :: b :: T) = true <-> forall x, x ∈ b :: T -> x = a.
Proof.
  rewrite AllSame_forallb, forallb_forall. split.
  - intros H x Hx. symmetry. apply type_eqb_eq, H. by apply list_elem_of_In.
  - intros H x Hx. apply type_eqb_eq. symmetry. apply H.
    by apply list_elem_of_In.
Qed.

(** With two or more arguments [AllSame] holds exactly when every
    argument is the first one; with none it does not hold. *)
Theorem AllSame_two_or_more a b T :
  (AllSame (a :: b :: T) = true <-> forall x, x ∈ b :: T -> x = a) /\
  AllSame [] = false.
Proof. split; [apply AllSame_iff|by simp AllSame]. Qed.

(** As the predicate of [RemoveIf] on a tuple of non-list types,
    [AllSame] holds exactly when the tuple is not empty and all its
    elements are the same type. *)
Theorem AllSame_Call_tuple T :
  Forall is_plain T ->
  (AllSame_Call (Types T) = Some true <->
   T <> [] /\ forall x y, x ∈ T -> y ∈ T -> x = y).
Proof.
  intros HT. unfold AllSame_Call. simp AllSame.
  destruct T as [|a [|b T]].
  - simp AllSame. split; [discriminate|]. by intros [? _].
  - apply Forall_cons in HT as [Ha _]. destruct a; [|done]. simp AllSame.
    split; [|done]. intros _. split; [done|].
    intros x y Hx%list_elem_of_singleton Hy%list_elem_of_singleton. congruence.
  - pose proof (AllSame_iff a b T) as Hiff. split.
    + intros H. injection H as H. split; [done|].
      assert (Hall : forall x, x ∈ a :: b :: T -> x = a).
      { intros x [->|Hx]%elem_of_cons; [done|]. by apply Hiff. }
      intros x y Hx Hy. by rewrite (Hall x Hx), (Hall y Hy).
    + intros [_ H]. f_equal. apply Hiff. intros x Hx.
      apply H; [by right|by left].
Qed.

Lemma ExistsImpl_existsb n H :
  ExistsImpl n (Types H) = Some (existsb (type_eqb n) H).
Proof.
  induction H as [|h H IH]; simp ExistsImpl; [done|].
  simpl. rewrite IH. by destruct (type_eqb n h).
Qed.

Lemma existsb_type_eqb n H : existsb (type_eqb n) H = true <-> n ∈ H.
Proof.
  rewrite existsb_exists. split.
  - intros (x & Hx & ->%type_eqb_eq). by apply list_elem_of_In.
  - intros Hn. exists n. split; [by apply list_elem_of_In|apply type_eqb_refl].
Qed.

(** [Exists] decides membership in a type list. *)
Theorem Exists_membership n H :
  exists r : bool, Exists n (Types H) = Some r /\ (r = true <-> n ∈ H).
Proof.
  exists (existsb (type_eqb n) H). split.
  - apply ExistsImpl_existsb.
  - apply existsb_type_eqb.
Qed.

Lemma RemoveIfImpl_filter (Call : type -> option bool) (p : type -> bool) T :
  (forall x, x ∈ T -> Call x = Some (p x)) ->
  RemoveIfImpl Call (Types T)
  = Some (Types (List.filter (fun x => negb (p x)) T)).
Proof.
  induction T as [|h T IH]; intros HC; simp RemoveIfImpl; [done|].
  rewrite (HC h) by by left. simpl.
  rewrite IH by (intros x Hx; apply HC; by right). simpl.
  unfold Concat. destruct (p h); simp ConcatImpl; simpl; by simp ConcatImpl.
Qed.

(** [RemoveIf] keeps, in order, exactly the elements on which the
    predicate is false. *)
Theorem RemoveIf_filter (Call : type -> option bool) (p : type -> bool) T :
  (forall x, x ∈ T -> Call x = Some (p x)) ->
  RemoveIf Call (Types T) = Some (Types (List.filter (fun x => negb (p x)) T)).
Proof. apply RemoveIfImpl_filter. Qed.

(** [RemoveIf] is ill-formed when the predicate is ill-formed on some
    element, even one that another element would not let through. *)
Theorem RemoveIf_ill_formed_predicate (Call : type -> option bool) T x :
  x ∈ T -> Call x = None -> RemoveIf Call (Types T) = None.
Proof.
  unfold RemoveIf. intros Hx HC. induction T as [|h T IH].
  - by apply elem_of_nil in Hx.
  - simp RemoveIfImpl. apply elem_of_cons in Hx as [<-|Hx].
    + by rewrite HC.
    + rewrite (IH Hx). by destruct (Call h).
Qed.


Lemma pairs_of_elem A B tu :
  tu ∈ pairs_of A B <-> exists a b, tu = Types [a; b] /\ a ∈ A /\ b ∈ B.
Proof.
  unfold pairs_of. rewrite list_elem_of_In, <- flat_map_concat_map, in_flat_map.
  split.
  - intros (a & Ha & Ht). apply in_map_iff in Ht as (b & <- & Hb).
    exists a, b. by rewrite !list_elem_of_In.
  - intros (a & b & -> & Ha & Hb). exists a. split; [by apply list_elem_of_In|].
    apply in_map_iff. exists b. split; [done|by apply list_elem_of_In].
Qed.

(** The use documented in the header: removing the [AllSame] entries
    from the cross join of two lists of non-list types leaves exactly
    the pairs of two different types. *)
Theorem RemoveIf_AllSame_CrossJoin A B :
  Forall is_plain A -> Forall is_plain B ->
  exists R,
    CrossJoin [Types A; Types B] ≫= RemoveIf AllSame_Call = Some (Types R) /\
    (forall tu, tu ∈ R <->
                exists a b, tu = Types [a; b] /\ a ∈ A /\ b ∈ B /\ a <> b).
Proof.
  intros HA HB. rewrite (CrossJoin_pairs_of A B HA HB). simpl.
  exists (List.filter (fun x => negb (AllSame [x])) (pairs_of A B)). split.
  - apply RemoveIfImpl_filter. done.
  - intros tu. rewrite list_elem_of_In, filter_In, <- list_elem_of_In.
    rewrite pairs_of_elem, negb_true_iff. split.
    + intros [(a & b & -> & Ha & Hb) Hne]. exists a, b.
      repeat split; try done. intros ->.
      simp AllSame in Hne. rewrite AllSame_forallb in Hne. simpl in Hne.
      by rewrite type_eqb_refl in Hne.
    + intros (a & b & -> & Ha & Hb & Hne). split; [by exists a, b|].
      simp AllSame. rewrite AllSame_forallb. simpl. rewrite andb_true_r.
      by apply type_eqb_neq.
Qed.

Lemma replicate_app_cons {X} (k : nat) (x : X) (l : list X) :
  (replicate k x ++ x :: l = x :: replicate k x ++ l)%list.
Proof. induction k as [|k IH]; simpl; [done|]. by rewrite IH. Qed.

Lemma Repeat_detail_step a (N : Z) T :
  (0 < N)%Z ->
  Repeat_detail a N (Types T) = Repeat_detail a (N - 1) (Types (a :: T)).
Proof.
  intros HN. rewrite Repeat_detail_equation_2.
  destruct (decide (N = 0%Z)) as [|Hne]; [lia|].
  rewrite Repeat_detail_clause_2_equation_2.
  destruct (decide (N < 0)%Z) as [|Hge]; [lia|].
  by rewrite Repeat_detail_clause_2_clause_2_equation_2.
Qed.

Lemma Repeat_detail_negative a (N : Z) T :
  (N < 0)%Z -> Repeat_detail a N (Types T) = None.
Proof.
  intros HN. rewrite Repeat_detail_equation_2.
  destruct (decide (N = 0%Z)) as [|Hne]; [lia|].
  rewrite Repeat_detail_clause_2_equation_2.
  destruct (decide (N < 0)%Z) as [Hlt|]; [|lia].
  by rewrite Repeat_detail_clause_2_clause_2_equation_1.
Qed.

Lemma Repeat_detail_nonneg a (k : nat) T :
  Repeat_detail a (Z.of_nat k) (Types T) = Some (Types (replicate k a ++ T)).
Proof.
  revert T. induction k as [|k IH]; intros T.
  - by simp Repeat_detail.
  - rewrite Repeat_detail_step by lia.
    replace (Z.of_nat (S k) - 1)%Z with (Z.of_nat k) by lia.
    rewrite IH. by rewrite replicate_app_cons.
Qed.

Lemma Repeat_Call_value (N : Z) a :
  Repeat_Call N a
  = if decide (0 <= N)%Z then Some (Types (replicate (Z.to_nat N) a)) else None.
Proof.
  unfold Repeat_Call. destruct (decide (0 <= N)%Z) as [Hpos|Hneg].
  - rewrite <- (Z2Nat.id N) at 1 by done.
    by rewrite Repeat_detail_nonneg, app_nil_r.
  - apply Repeat_detail_negative. lia.
Qed.

(** [Repeat<N>::Call<T>] is the list of [N] copies of [T]; a negative
    count is ill-formed. *)
Theorem Repeat_replicate (N : Z) a :
  Repeat_Call N a
  = if decide (0 <= N)%Z then Some (Types (replicate (Z.to_nat N) a)) else None.
Proof. apply Repeat_Call_value. Qed.

(** [Transform] with [Repeat<N>] turns every element into the list of
    its [N] copies, keeping order and size; with a negative count it is
    ill-formed unless the list is empty. *)
Theorem Transform_Repeat (N : Z) T :
  Transform (Repeat_Call N) (Types T)
  = if decide (0 <= N \/ T = [])%Z
    then Some (Types (map (fun x => Types (replicate (Z.to_nat N) x)) T))
    else None.
Proof.
  unfold Transform, TransformImpl.
  destruct (decide (0 <= N)%Z) as [Hpos|Hneg].
  - rewrite decide_True by by left.
    assert (HM : mapM (Repeat_Call N) T
                 = Some (map (fun x => Types (replicate (Z.to_nat N) x)) T)).
    { induction T as [|x T IH]; [done|].
      cbn [map mapM]. rewrite Repeat_Call_value, decide_True by done. simpl.
      by rewrite IH. }
    by rewrite HM.
  - destruct T as [|x T].
    + by rewrite decide_True by by right.
    + rewrite decide_False by (intros [?|?]; done).
      cbn [mapM]. rewrite Repeat_Call_value, decide_False by done. done.
Qed.

Lemma foldr_delete_shift (h : type) T (ks : list nat) :
  foldr delete (h :: T) (map S ks) = h :: foldr delete T ks.
Proof. induction ks as [|k ks IH]; simpl; [done|]. by rewrite IH. Qed.

Lemma Remove_detail_sorted T (CUR : Z) (IDXs : list Z) :
  (Z.of_nat (length T) < 2 ^ 31)%Z ->
  StronglySorted Z.lt IDXs ->
  Forall (fun i => CUR <= i < CUR + Z.of_nat (length T))%Z IDXs ->
  Remove_detail T CUR IDXs
  = Some (Types (foldr delete T (map (fun i => Z.to_nat (i - CUR)) IDXs))).
Proof.
  revert CUR IDXs. induction T as [|h T IH]; intros CUR IDXs HT Hs Hb.
  - destruct IDXs as [|i IDXs]; [done|].
    apply Forall_cons in Hb as [Hi _]. simpl in Hi. lia.
  - destruct IDXs as [|i IDXs]; [done|].
    cbn [length] in HT, Hb.
    pose proof (StronglySorted_inv Hs) as [Hs' Hlt].
    apply Forall_cons in Hb as [Hi Hb].
    assert (Hshift : forall js : list Z,
               Forall (fun j => CUR + 1 <= j)%Z js ->
               map (fun j => Z.to_nat (j - CUR)) js
               = map S (map (fun j => Z.to_nat (j - (CUR + 1))) js)).
    { intros js Hjs. induction Hjs as [|j js Hj _ IHjs]; [done|].
      simpl. rewrite IHjs. f_equal. lia. }
    cbn [Remove_detail]. destruct (decide (i = CUR)) as [->|Hne].
    + assert (Hb' : Forall (fun j => CUR + 1 <= j < CUR + 1 + Z.of_nat (length T))%Z
                      IDXs).
      { apply Forall_forall. intros j Hj.
        pose proof (proj1 (Forall_forall _ _) Hlt j Hj).
        pose proof (proj1 (Forall_forall _ _) Hb j Hj). simpl in *. lia. }
      rewrite (IH (CUR + 1)%Z IDXs) by (done || lia).
      cbn [map foldr]. rewrite Z.sub_diag. cbn [Z.to_nat].
      rewrite Hshift by (eapply Forall_impl; [exact Hb'|]; simpl; lia).
      by rewrite foldr_delete_shift.
    + assert (Hb' : Forall (fun j => CUR + 1 <= j < CUR + 1 + Z.of_nat (length T))%Z
                      (i :: IDXs)).
      { constructor; [lia|]. apply Forall_forall. intros j Hj.
        pose proof (proj1 (Forall_forall _ _) Hlt j Hj).
        pose proof (proj1 (Forall_forall _ _) Hb j Hj). simpl in *. lia. }
      rewrite to_size_t_nonneg by lia. rewrite decide_True by lia.
      rewrite (IH (CUR + 1)%Z (i :: IDXs)) by (done || lia).
      rewrite (Hshift (i :: IDXs))
        by (eapply Forall_impl; [exact Hb'|]; simpl; lia).
      rewrite foldr_delete_shift. cbn [mbind option_bind].
      unfold Concat. simp ConcatImpl. simpl. by simp ConcatImpl.
Qed.

(** [Remove] with strictly increasing indices inside the list deletes
    exactly the elements at these positions. *)
Theorem Remove_positions T (IDXs : list Z) :
  (Z.of_nat (length T) < 2 ^ 31)%Z ->
  StronglySorted Z.lt IDXs ->
  Forall (fun i => 0 <= i < Z.of_nat (length T))%Z IDXs ->
  Remove (Types T) IDXs = Some (Types (foldr delete T (map Z.to_nat IDXs))).
Proof.
  intros HT Hs Hb. unfold Remove.
  rewrite (Remove_detail_sorted T 0 IDXs HT Hs) by done.
  do 3 f_equal. apply map_ext. intros i. by rewrite Z.sub_0_r.
Qed.

Lemma Remove_detail_one T (CUR i : Z) :
  (- 2 ^ 31 <= i < 2 ^ 31)%Z ->
  (0 <= CUR)%Z -> (CUR + Z.of_nat (length T) < 2 ^ 31)%Z ->
  Remove_detail T CUR [i]
  = if decide (CUR <= i < CUR + Z.of_nat (length T))%Z
    then Some (Types (delete (Z.to_nat (i - CUR)) T)) else None.
Proof.
  revert CUR. induction T as [|h T IH]; intros CUR Hi HC HT.
  - simpl. rewrite decide_False; [done|]. simpl. lia.
  - cbn [length] in *. cbn [Remove_detail].
    destruct (decide (i = CUR)) as [->|Hne].
    + rewrite decide_True by lia. rewrite Z.sub_diag. by destruct T.
    + destruct (decide (CUR < i)%Z) as [Hgt|Hle].
      * rewrite to_size_t_nonneg by lia.
        destruct (decide (Z.of_nat (length T) + 1 > i - CUR)%Z) as [Hin|Hout].
        -- rewrite IH by lia. rewrite !decide_True by lia. simpl.
           unfold Concat. simp ConcatImpl. simpl. simp ConcatImpl.
           replace (Z.to_nat (i - CUR)) with (S (Z.to_nat (i - (CUR + 1)))) by lia.
           done.
        -- rewrite decide_False by lia. done.
      * rewrite to_size_t_neg by lia.
        rewrite decide_False by lia. rewrite decide_False by lia. done.
Qed.

(** [Remove] of one index deletes the element at that position; an
    index outside the list, negative or too large, is rejected by the
    [static_assert] (or finds no specialization on the empty list). *)
Theorem Remove_one_index T (i : Z) :
  (- 2 ^ 31 <= i < 2 ^ 31)%Z ->
  (Z.of_nat (length T) < 2 ^ 31)%Z ->
  Remove (Types T) [i]
  = if decide (0 <= i < Z.of_nat (length T))%Z
    then Some (Types (delete (Z.to_nat i) T)) else None.
Proof.
  intros Hi HT. unfold Remove. rewrite Remove_detail_one by lia.
  rewrite Z.sub_0_r. simpl. done.
Qed.

End TypeListMore.

(** *** The type-list properties on the header's examples *)

Lemma GetType_lookup_witness :
  GetType (Types [Plain "int"; Plain "float"; Plain "char"; Plain "void*"]) 2
  = Some (Plain "char") /\
  GetType (Types [Plain "int"; Plain "float"; Plain "char"; Plain "void*"]) 4
  = None.
Proof.
  split.
  - apply (GetType_lookup
             [Plain "int"; Plain "float"; Plain "char"; Plain "void*"] 2);
      simpl; lia.
  - apply (GetType_lookup
             [Plain "int"; Plain "float"; Plain "char"; Plain "void*"] 4);
      simpl; lia.
Defined.

Lemma Concat_non_list_witness :
  Concat [Types [Plain "int"]; Plain "float"] = None.
Proof.
  apply (Concat_non_list [Types [Plain "int"]; Plain "float"] "float").
  apply list_elem_of_In. simpl. tauto.
Defined.

Lemma Flatten_idempotent_witness :
  Flatten (Types [Plain "int"; Plain "double"; Plain "char"])
  = Some (Types [Plain "int"; Plain "double"; Plain "char"]).
Proof.
  apply (Flatten_idempotent
           [Plain "int"; Types [Plain "double"; Types [Plain "char"]]]).
  reflexivity.
Defined.

Lemma CrossJoin_product_witness :
  CrossJoin [Types [Plain "int"; Plain "float"]; Types [Plain "char"];
             Types [Plain "double"; Plain "void*"]]
  = Some (Types [Types [Plain "int"; Plain "char"; Plain "double"];
                 Types [Plain "int"; Plain "char"; Plain "void*"];
                 Types [Plain "float"; Plain "char"; Plain "double"];
                 Types [Plain "float"; Plain "char"; Plain "void*"]]).
Proof.
  apply (CrossJoin_product [Plain "int"; Plain "float"]
           [[Plain "char"]; [Plain "double"; Plain "void*"]]).
  repeat constructor.
Defined.

Lemma AllSame_two_or_more_witness :
  AllSame [Plain "int"; Plain "int"; Plain "int"] = true.
Proof.
  apply (proj1 (AllSame_two_or_more (Plain "int") (Plain "int") [Plain "int"])).
  intros x Hx. apply list_elem_of_In in Hx. simpl in Hx.
  destruct Hx as [<-|[<-|[]]]; reflexivity.
Defined.

Lemma AllSame_Call_tuple_witness :
  AllSame_Call (Types [Plain "int"; Plain "int"; Plain "int"]) = Some true.
Proof.
  apply (AllSame_Call_tuple [Plain "int"; Plain "int"; Plain "int"]).
  - repeat constructor.
  - split; [discriminate|]. intros x y Hx Hy.
    apply list_elem_of_In in Hx, Hy. simpl in Hx, Hy.
    destruct Hx as [<-|[<-|[<-|[]]]], Hy as [<-|[<-|[<-|[]]]]; reflexivity.
Defined.

Lemma RemoveIf_filter_witness :
  RemoveIf AllSame_Call
    (Types [Types [Plain "int"; Plain "int"; Plain "int"];
            Types [Plain "int"; Plain "float"; Plain "int"]])
  = Some (Types [Types [Plain "int"; Plain "float"; Plain "int"]]).
Proof.
  apply (RemoveIf_filter AllSame_Call (fun x => AllSame [x])
           [Types [Plain "int"; Plain "int"; Plain "int"];
            Types [Plain "int"; Plain "float"; Plain "int"]]).
  intros x _. reflexivity.
Defined.

Lemma RemoveIf_ill_formed_predicate_witness :
  RemoveIf (ContainedIn_Call (Plain "int")) (Types [Plain "char"]) = None.
Proof.
  apply (RemoveIf_ill_formed_predicate (ContainedIn_Call (Plain "int"))
           [Plain "char"] (Plain "char")).
  - apply list_elem_of_In. simpl. tauto.
  - reflexivity.
Defined.

Lemma RemoveIf_AllSame_CrossJoin_witness :
  exists R,
    CrossJoin [Types [Plain "int"; Plain "char"];
               Types [Plain "int"; Plain "char"]]
      ≫= RemoveIf AllSame_Call = Some (Types R) /\
    (forall tu, tu ∈ R <->
                exists a b, tu = Types [a; b] /\
                            a ∈ [Plain "int"; Plain "char"] /\
                            b ∈ [Plain "int"; Plain "char"] /\ a <> b).
Proof.
  apply (RemoveIf_AllSame_CrossJoin [Plain "int"; Plain "char"]
           [Plain "int"; Plain "char"]); repeat constructor.
Defined.

Lemma Remove_positions_witness :
  Remove (Types [Plain "int"; Plain "float"; Plain "char"; Plain "double"])
    [1; 3]%Z
  = Some (Types [Plain "int"; Plain "char"]).
Proof.
  apply (Remove_positions
           [Plain "int"; Plain "float"; Plain "char"; Plain "double"] [1; 3]%Z).
  - simpl. lia.
  - repeat constructor; lia.
  - repeat constructor; simpl; lia.
Defined.

Lemma Remove_one_index_witness :
  Remove (Types [Plain "int"; Plain "float"; Plain "char"; Plain "double"])
    [4]%Z = None /\
  Remove (Types [Plain "int"; Plain "float"; Plain "char"; Plain "double"])
    [-1]%Z = None.
Proof.
  split.
  - apply (Remove_one_index
             [Plain "int"; Plain "float"; Plain "char"; Plain "double"] 4);
      simpl; lia.
  - apply (Remove_one_index
             [Plain "int"; Plain "float"; Plain "char"; Plain "double"] (-1));
      simpl; lia.
Defined.

(** The header's comment on [ContainedIn] gives [Types<float, int>] for
    this instantiation; the templates yield the one-element list holding
    that tuple. *)
Example RemoveIf_ContainedIn_doc_example :
  RemoveIf (ContainedIn_Call (Types [Types [Plain "char"; Plain "char"]]))
    (Types [Types [Plain "char"; Plain "char"];
            Types [Plain "float"; Plain "int"]])
  = Some (Types [Types [Plain "float"; Plain "int"]]).
Proof. reflexivity. Qed.

(** ** More of the JNI shim *)

Section ShimMore.

Local Open Scope Z_scope.
Context {JVM : Type} `{env : JNIEnv JVM}.
Implicit Types (w : @world JVM) (split : packed_columns).

Lemma to_pointer_to_jlong (p : pointer) :
  0 <= p < 2 ^ 64 -> to_pointer (to_jlong p) = p.
Proof.
  intros Hp. unfold to_pointer, to_jlong.
  destruct (decide (p < 2 ^ 63)).
  - rewrite (Z.mod_small (p + 2 ^ 63)) by lia.
    replace (p + 2 ^ 63 - 2 ^ 63) with p by lia. by rewrite Z.mod_small.
  - replace (p + 2 ^ 63) with (p - 2 ^ 63 + 1 * 2 ^ 64) by lia.
    rewrite Z_mod_plus_full, (Z.mod_small (p - 2 ^ 63)) by lia.
    replace (p - 2 ^ 63 - 2 ^ 63) with (p - 1 * 2 ^ 64) by lia.
    rewrite Zminus_mod, Z_mod_mult, Z.sub_0_r, Z.mod_mod by lia.
    by rewrite Z.mod_small.
Qed.

Lemma to_jlong_nonzero (p : pointer) :
  0 <= p < 2 ^ 64 -> p <> nullptr -> to_jlong p <> 0.
Proof.
  intros Hp Hnz Hz. apply Hnz.
  rewrite <- (to_pointer_to_jlong p Hp), Hz. reflexivity.
Qed.

(** A native address survives the trip to the managed side and back:
    cast to [jlong] it stays in range, is null only for the null
    pointer, and casts back to the same address; and a [jlong] cast to a
    pointer and back is unchanged. *)
Theorem pointer_jlong_round_trip :
  (forall p : pointer,
     0 <= p < 2 ^ 64 ->
     - 2 ^ 63 <= to_jlong p < 2 ^ 63 /\
     to_pointer (to_jlong p) = p /\
     (to_jlong p = 0 <-> p = nullptr)) /\
  (forall j : jlong,
     - 2 ^ 63 <= j < 2 ^ 63 ->
     to_jlong (to_pointer j) = j).
Proof.
  split.
  - intros p Hp. split; [|split].
    + unfold to_jlong. pose proof (Z.mod_pos_bound (p + 2 ^ 63) (2 ^ 64)). lia.
    + by apply to_pointer_to_jlong.
    + split.
      * intros Hz. destruct (decide (p = nullptr)) as [|Hne]; [done|].
        by destruct (to_jlong_nonzero p Hp Hne).
      * intros ->. reflexivity.
  - intros j Hj. unfold to_jlong, to_pointer.
    destruct (decide (0 <= j)).
    + rewrite (Z.mod_small j) by lia. rewrite Z.mod_small by lia. lia.
    + replace j with (j + 2 ^ 64 - 1 * 2 ^ 64) at 1 by lia.
      rewrite (Zminus_mod (j + 2 ^ 64)), Z_mod_mult, Z.sub_0_r, Z.mod_mod by lia.
      rewrite (Z.mod_small (j + 2 ^ 64)) by lia.
      replace (j + 2 ^ 64 + 2 ^ 63) with (j + 2 ^ 63 + 1 * 2 ^ 64) by lia.
      rewrite Z_mod_plus_full, Z.mod_small by lia. lia.
Qed.

(** What one run of [closeMetadata] does on a live vector. *)
Lemma closeMetadata_run (p : pointer) w data size :
  0 <= p < 2 ^ 64 -> p <> nullptr ->
  heap w !! p = Some (Vector data size) ->
  Java_ai_rapids_cudf_ContiguousTable_closeMetadata (to_jlong p) w
  = Normal tt
      (World (Contiguous_table_jclass w) (From_packed_table_method w)
         (delete p (heap w)) (jvm w) (jni_log w)).
Proof.
  intros Hp Hnz Hvec.
  unfold Java_ai_rapids_cudf_ContiguousTable_closeMetadata. unfold_shim.
  rewrite decide_False by by apply to_jlong_nonzero.
  rewrite (to_pointer_to_jlong p Hp).
  rewrite decide_False by done. by rewrite Hvec.
Qed.

(** The hand-over works end to end: the first argument given to the
    factory method is a handle that [closeMetadata] accepts, and closing
    it deallocates exactly the metadata vector the packed table owned;
    the device buffer stays allocated. *)
Theorem metadata_handle_handed_over split w data size mdata msize obj j :
  0 <= metadata split < 2 ^ 64 ->
  metadata split <> nullptr ->
  heap w !! metadata split = Some (Vector mdata msize) ->
  heap w !! gpu_data split = Some (DeviceBuffer data size) ->
  jvm_CallStaticObjectMethod (Contiguous_table_jclass w)
    (From_packed_table_method w)
    [to_jlong (metadata split); to_jlong data; to_jlong size;
     to_jlong (gpu_data split)] (jvm w) = (obj, j) ->
  obj <> nullptr ->
  exists split' w1 w2,
    contiguous_table_from split w = Normal (obj, split') w1 /\
    Java_ai_rapids_cudf_ContiguousTable_closeMetadata
      (to_jlong (metadata split)) w1 = Normal tt w2 /\
    heap w2 = delete (metadata split) (heap w) /\
    heap w2 !! metadata split = None /\
    heap w2 !! gpu_data split = Some (DeviceBuffer data size).
Proof.
  intros Hr Hnz Hvec Hbuf Hcall Hobj.
  rewrite (contiguous_table_from_run split w data size obj j Hbuf Hcall).
  eexists _, _, _. split; [reflexivity|].
  split; [by apply (closeMetadata_run _ _ mdata msize)|].
  cbn [heap]. split; [done|]. split; [apply lookup_delete_eq|].
  rewrite lookup_delete_ne; [done|]. intros Heq. congruence.
Qed.

(** [closeMetadata] must be called once: on a handle it has already
    closed, a second [closeMetadata] and a later
    [createMetadataDirectBuffer] both have undefined behaviour (the
    vector is gone). *)
Theorem closeMetadata_only_once j_metadata_ptr w data size :
  - 2 ^ 63 <= j_metadata_ptr < 2 ^ 63 ->
  j_metadata_ptr <> 0 ->
  heap w !! to_pointer j_metadata_ptr = Some (Vector data size) ->
  bind (Java_ai_rapids_cudf_ContiguousTable_closeMetadata j_metadata_ptr)
    (fun _ => Java_ai_rapids_cudf_ContiguousTable_closeMetadata j_metadata_ptr) w
  = Undefined /\
  bind (Java_ai_rapids_cudf_ContiguousTable_closeMetadata j_metadata_ptr)
    (fun _ => Java_ai_rapids_cudf_ContiguousTable_createMetadataDirectBuffer
                j_metadata_ptr) w
  = Undefined.
Proof.
  intros Hr Hnz Hvec.
  pose proof (to_pointer_nonzero j_metadata_ptr Hr Hnz) as Hp.
  unfold Java_ai_rapids_cudf_ContiguousTable_closeMetadata,
    Java_ai_rapids_cudf_ContiguousTable_createMetadataDirectBuffer.
  unfold_shim. rewrite !decide_False by done. rewrite Hvec.
  cbn [heap]. rewrite ?decide_False by done.
  rewrite lookup_delete_eq. split; reflexivity.
Qed.

(** Where a failed initialization leaves the two globals.  A failed
    class lookup changes neither; once the class is found the method
    handle is overwritten, also by a null result; the class reference is
    overwritten only when the method was found, also by a null
    reference.  The native heap is never touched. *)
Theorem cache_contiguous_table_jni_globals w cls j1 m j2 g j3 :
  jvm_FindClass CONTIGUOUS_TABLE_CLASS (jvm w) = (cls, j1) ->
  jvm_GetStaticMethodID cls "fromPackedTable"
    "(JJJJ)Lai/rapids/cudf/ContiguousTable;" j1 = (m, j2) ->
  jvm_NewGlobalRef cls j2 = (g, j3) ->
  exists r w',
    cache_contiguous_table_jni w = Normal r w' /\
    heap w' = heap w /\
    From_packed_table_method w'
    = (if decide (cls = nullptr) then From_packed_table_method w else m) /\
    Contiguous_table_jclass w'
    = (if decide (cls = nullptr \/ m = nullptr)
       then Contiguous_table_jclass w else g).
Proof.
  intros Hc Hm Hg.
  rewrite (cache_contiguous_table_jni_run w cls j1 m j2 g j3 Hc Hm Hg).
  destruct (decide (cls = nullptr)) as [Hcls|Hcls].
  - eexists _, _. split; [reflexivity|]. cbn.
    rewrite decide_True by by left. done.
  - destruct (decide (m = nullptr)) as [Hmn|Hmn].
    + eexists _, _. split; [reflexivity|]. cbn.
      rewrite decide_True by by right. done.
    + eexists _, _. split; [reflexivity|]. cbn.
      rewrite decide_False by (intros [?|?]; done). done.
Qed.

(** Initialization never deletes a global reference: when a class
    reference is already cached, initializing again replaces it without
    releasing it. *)
Theorem cache_contiguous_table_jni_never_deletes w :
  exists r w' calls,
    cache_contiguous_table_jni w = Normal r w' /\
    jni_log w' = (jni_log w ++ calls)%list /\
    (length calls <= 3)%nat /\
    (forall obj, DeleteGlobalRef_call obj ∉ calls).
Proof.
  destruct (jvm_FindClass CONTIGUOUS_TABLE_CLASS (jvm w)) as [cls j1] eqn:Hc.
  destruct (jvm_GetStaticMethodID cls "fromPackedTable"
              "(JJJJ)Lai/rapids/cudf/ContiguousTable;" j1) as [m j2] eqn:Hm.
  destruct (jvm_NewGlobalRef cls j2) as [g j3] eqn:Hg.
  rewrite (cache_contiguous_table_jni_run w cls j1 m j2 g j3 Hc Hm Hg).
  destruct (decide (cls = nullptr)); [|destruct (decide (m = nullptr))];
    eexists _, _, _; (split; [reflexivity|]); cbn [jni_log];
    rewrite <- ?app_assoc;
    (split; [reflexivity|]); (split; [simpl; lia|]);
    intros obj Hin; simpl in Hin;
    repeat (apply elem_of_cons in Hin as [Hin|Hin]; [discriminate|]);
    by apply elem_of_nil in Hin.
Qed.

(** Initialization followed by release makes four JNI calls in all: the
    two lookups, the creation of one global reference and the deletion
    of that same reference; afterwards no class reference is cached. *)
Theorem cache_then_release w0 w :
  cache_contiguous_table_jni w0 = Normal true w ->
  exists cls w',
    release_contiguous_table_jni w = Normal tt w' /\
    jni_log w' =
      (jni_log w0 ++
       [FindClass_call "ai/rapids/cudf/ContiguousTable";
        GetStaticMethodID_call cls "fromPackedTable"
          "(JJJJ)Lai/rapids/cudf/ContiguousTable;";
        NewGlobalRef_call cls;
        DeleteGlobalRef_call (Contiguous_table_jclass w)])%list /\
    (exists j2, fst (jvm_NewGlobalRef cls j2) = Contiguous_table_jclass w) /\
    Contiguous_table_jclass w' = nullptr /\
    heap w' = heap w0.
Proof.
  destruct (jvm_FindClass CONTIGUOUS_TABLE_CLASS (jvm w0)) as [cls j1] eqn:Hc.
  destruct (jvm_GetStaticMethodID cls "fromPackedTable"
              "(JJJJ)Lai/rapids/cudf/ContiguousTable;" j1) as [m j2] eqn:Hm.
  destruct (jvm_NewGlobalRef cls j2) as [g j3] eqn:Hg.
  rewrite (cache_contiguous_table_jni_run w0 cls j1 m j2 g j3 Hc Hm Hg).
  destruct (decide (cls = nullptr)); [discriminate|].
  destruct (decide (m = nullptr)); [discriminate|].
  intros H. injection H as Hb Hw. apply bool_decide_eq_true_1 in Hb. subst w.
  rewrite release_contiguous_table_jni_run. cbn.
  rewrite decide_True by done.
  exists cls. eexists. split; [reflexivity|]. cbn.
  split; [by rewrite <- !app_assoc|].
  split; [exists j2; by rewrite Hg|]. done.
Qed.

(** A packed table can be handed over once: applied again to the table
    it has just emptied, [contiguous_table_from] dereferences the null
    [gpu_data] pointer, which is undefined behaviour. *)
Theorem contiguous_table_from_only_once split w data size obj j :
  heap w !! nullptr = None ->
  heap w !! gpu_data split = Some (DeviceBuffer data size) ->
  jvm_CallStaticObjectMethod (Contiguous_table_jclass w)
    (From_packed_table_method w)
    [to_jlong (metadata split); to_jlong data; to_jlong size;
     to_jlong (gpu_data split)] (jvm w) = (obj, j) ->
  obj <> nullptr ->
  bind (contiguous_table_from split)
    (fun r => contiguous_table_from (snd r)) w
  = Undefined.
Proof.
  intros Hnull Hbuf Hcall Hobj. unfold bind at 1.
  rewrite (contiguous_table_from_run split w data size obj j Hbuf Hcall).
  rewrite decide_True by done. cbn [snd].
  unfold contiguous_table_from. unfold_shim. cbn [gpu_data heap].
  change (heap w !! nullptr) with (heap w !! nullptr) in Hnull |- *.
  by rewrite Hnull.
Qed.

End ShimMore.

(** *** The further shim properties on the scripted runtime *)

Lemma pointer_jlong_round_trip_witness :
  to_jlong 18446744073709551608 = -8 /\
  to_pointer (to_jlong 18446744073709551608) = 18446744073709551608 /\
  to_jlong (to_pointer (-8)) = -8.
Proof.
  pose proof (proj1 pointer_jlong_round_trip 18446744073709551608
                ltac:(lia)) as (_ & Hback & _).
  pose proof (proj2 pointer_jlong_round_trip (-8) ltac:(lia)) as Hforth.
  split; [reflexivity|]. split; [exact Hback|exact Hforth].
Defined.

Lemma metadata_handle_handed_over_witness :
  exists split' w1 w2,
    contiguous_table_from sample_split (cached_world [42])
    = Normal (42, split') w1 /\
    Java_ai_rapids_cudf_ContiguousTable_closeMetadata 4096 w1 = Normal tt w2 /\
    heap w2 = delete 4096 sample_heap /\
    heap w2 !! 4096 = None /\
    heap w2 !! 8192 = Some (DeviceBuffer 1048576 1024).
Proof.
  apply (metadata_handle_handed_over (env := scripted)
           sample_split (cached_world [42]) 1048576 1024 4128 16 42 []).
  - simpl. lia.
  - discriminate.
  - vm_compute. reflexivity.
  - vm_compute. reflexivity.
  - reflexivity.
  - discriminate.
Defined.

Lemma closeMetadata_only_once_witness :
  bind (Java_ai_rapids_cudf_ContiguousTable_closeMetadata 4096)
    (fun _ => Java_ai_rapids_cudf_ContiguousTable_closeMetadata 4096)
    (cached_world [])
  = Undefined /\
  bind (Java_ai_rapids_cudf_ContiguousTable_closeMetadata 4096)
    (fun _ => Java_ai_rapids_cudf_ContiguousTable_createMetadataDirectBuffer 4096)
    (cached_world [])
  = Undefined.
Proof.
  apply (closeMetadata_only_once (env := scripted) 4096 (cached_world [])
           4128 16).
  - lia.
  - discriminate.
  - vm_compute. reflexivity.
Defined.

(** A second initialization on which the method lookup fails: the
    cached method handle [7] is lost, the class reference [9] stays. *)
Lemma cache_contiguous_table_jni_globals_witness :
  exists r w',
    cache_contiguous_table_jni (cached_world [5; 0; 9]) = Normal r w' /\
    heap w' = sample_heap /\
    From_packed_table_method w' = nullptr /\
    Contiguous_table_jclass w' = 9.
Proof.
  apply (cache_contiguous_table_jni_globals (env := scripted)
           (cached_world [5; 0; 9]) 5 [0; 9] 0 [9] 9 []); reflexivity.
Defined.

Lemma cache_then_release_witness :
  exists cls w',
    release_contiguous_table_jni initialized_world = Normal tt w' /\
    jni_log w' =
      [FindClass_call "ai/rapids/cudf/ContiguousTable";
       GetStaticMethodID_call cls "fromPackedTable"
         "(JJJJ)Lai/rapids/cudf/ContiguousTable;";
       NewGlobalRef_call cls;
       DeleteGlobalRef_call 9] /\
    (exists j2 : list Z, fst (jvm_NewGlobalRef cls j2) = 9) /\
    Contiguous_table_jclass w' = nullptr /\
    heap w' = sample_heap.
Proof.
  apply (cache_then_release (env := scripted) (fresh_world [5; 7; 9])
           initialized_world).
  vm_compute. reflexivity.
Defined.

Lemma contiguous_table_from_only_once_witness :
  bind (contiguous_table_from sample_split)
    (fun r => contiguous_table_from (snd r)) (cached_world [42; 43])
  = Undefined.
Proof.
  apply (contiguous_table_from_only_once (env := scripted)
           sample_split (cached_world [42; 43]) 1048576 1024 42 [43]).
  - vm_compute. reflexivity.
  - vm_compute. reflexivity.
  - reflexivity.
  - discriminate.
Defined.
